(** * RS485 packet transmission sequencer (rs485_test_v2.py)

    A shallow embedding of [RS485Tester] and [main] and the properties of
    the sequencer: the single send, the phase driver, the full run and the
    channel life cycle.

    The program talks to three things it does not own: the pyserial port,
    [time.sleep] and the logger.  The port and the clock are an
    [Environment]: every call may return or raise, and the theorems
    quantify over all environments.  Every call is also appended to a
    trace, which is what the theorems observe.  Logger calls are recorded
    in the trace (level, format text, arguments) and never raise.

    An operator interrupt is a KeyboardInterrupt raised by a call of the
    environment (the port or the sleep the program is blocked in).
    Durations are seconds, as rationals. *)

From Stdlib Require Import ZArith List Bool Lia QArith.
From Stdlib.Strings Require Import String Ascii Byte.
Import ListNotations.

Open Scope string_scope.
Open Scope list_scope.
Open Scope Z_scope.

(** ** Bytes and hexadecimal text *)

Definition bytes := list byte.

Definition hex_value (c : ascii) : option N :=
  let n := N_of_ascii c in
  if ((48 <=? n) && (n <=? 57))%N then Some (n - 48)%N
  else if ((97 <=? n) && (n <=? 102))%N then Some (n - 87)%N
  else if ((65 <=? n) && (n <=? 70))%N then Some (n - 55)%N
  else None.

(** [bytes.fromhex]: two digits per byte; [None] stands for ValueError. *)
Fixpoint fromhex (s : string) : option bytes :=
  match s with
  | EmptyString => Some []
  | String a (String b rest) =>
      match hex_value a, hex_value b, fromhex rest with
      | Some h, Some l, Some tl =>
          match Byte.of_N (16 * h + l) with
          | Some x => Some (x :: tl)
          | None => None
          end
      | _, _, _ => None
      end
  | String _ EmptyString => None
  end.

Definition hex_digit (n : N) : ascii :=
  if (n <? 10)%N then ascii_of_N (48 + n) else ascii_of_N (87 + n).

(** [bytes.hex]: lower-case, two digits per byte. *)
Fixpoint hex (b : bytes) : string :=
  match b with
  | [] => EmptyString
  | x :: tl =>
      let n := Byte.to_N x in
      String (hex_digit (n / 16)) (String (hex_digit (n mod 16)) (hex tl))
  end.

Definition len (b : bytes) : Z := Z.of_nat (List.length b).

Definition literal (o : option bytes) : bytes :=
  match o with Some b => b | None => [] end.

(** ** Exceptions

    The classes the handlers of the program tell apart.  In pyserial
    SerialTimeoutException is a subclass of SerialException, which is a
    subclass of Exception; KeyboardInterrupt is not an Exception. *)

Inductive exn : Type :=
| SerialTimeoutException
| SerialException
| OtherException      (* any other subclass of Exception *)
| KeyboardInterrupt.

Definition is_SerialTimeoutException (e : exn) : bool :=
  match e with SerialTimeoutException => true | _ => false end.

Definition is_SerialException (e : exn) : bool :=
  match e with SerialTimeoutException | SerialException => true | _ => false end.

Definition is_Exception (e : exn) : bool :=
  match e with KeyboardInterrupt => false | _ => true end.

Definition is_KeyboardInterrupt (e : exn) : bool :=
  match e with KeyboardInterrupt => true | _ => false end.

(** What unwinds the stack: an exception of the environment, or the
    SystemExit of [sys.exit], which no handler of the program catches. *)
Inductive raised : Type :=
| Raise (e : exn)
| SystemExit (code : Z).

Inductive res (A : Type) : Type :=
| Val (a : A)
| Exc (x : raised).
Arguments Val {A} a.
Arguments Exc {A} x.

(** ** Trace *)

Inductive level : Type := DEBUG | INFO | WARNING | ERROR.

(** Arguments interpolated into a format text. *)
Inductive arg : Type :=
| AStr (s : string)
| AInt (n : Z)
| ASec (q : Q)
| AExn (e : exn)
| ANow.                (* datetime.now(), not modelled further *)

Inductive event : Type :=
| EvLog (lvl : level) (fmt : string) (args : list arg)
| EvPrint (fmt : string) (args : list arg)
| EvSerial (port : string) (baudrate : Z)   (* serial.Serial(port=..., ...) *)
| EvResetInput
| EvResetOutput
| EvWrite (packet : bytes)
| EvFlush
| EvInWaiting
| EvRead (size : Z)
| EvClose
| EvSleep (seconds : Q).

(** ** Environment: the serial port and the clock *)

Class Environment (W : Type) : Type := {
  env_open : string -> Z -> W -> (unit + exn) * W;
  env_reset_input_buffer : W -> (unit + exn) * W;
  env_reset_output_buffer : W -> (unit + exn) * W;
  env_write : bytes -> W -> (Z + exn) * W;
  env_flush : W -> (unit + exn) * W;
  env_in_waiting : W -> (Z + exn) * W;
  env_read : Z -> W -> (bytes + exn) * W;
  env_close : W -> (unit + exn) * W;
  env_sleep : Q -> W -> (unit + exn) * W
}.

(** The pyserial object: [is_open] is set by a successful constructor and
    cleared by a successful [close]. *)
Record Serial : Type := { is_open : bool }.

(** [self] together with the environment and the trace. *)
Record tester (W : Type) : Type := {
  port : string;
  baudrate : Z;
  log_file : string;
  serial_conn : option Serial;
  trace : list event;
  world : W
}.
Arguments port {W} _.
Arguments baudrate {W} _.
Arguments log_file {W} _.
Arguments serial_conn {W} _.
Arguments trace {W} _.
Arguments world {W} _.

(** [RS485Tester.__init__]: no connection yet. *)
Definition init {W : Type} (p : string) (b : Z) (f : string) (w : W) : tester W :=
  {| port := p; baudrate := b; log_file := f;
     serial_conn := None; trace := []; world := w |}.

Definition set_conn {W} (c : option Serial) (s : tester W) : tester W :=
  {| port := port s; baudrate := baudrate s; log_file := log_file s;
     serial_conn := c; trace := trace s; world := world s |}.

Definition emit {W} (e : event) (s : tester W) : tester W :=
  {| port := port s; baudrate := baudrate s; log_file := log_file s;
     serial_conn := serial_conn s; trace := trace s ++ [e]; world := world s |}.

Definition set_world {W} (w : W) (s : tester W) : tester W :=
  {| port := port s; baudrate := baudrate s; log_file := log_file s;
     serial_conn := serial_conn s; trace := trace s; world := w |}.

(** [self.serial_conn and self.serial_conn.is_open] *)
Definition channel_open {W} (s : tester W) : bool :=
  match serial_conn s with
  | Some c => is_open c
  | None => false
  end.

(** ** The monad: state, exceptions *)

Definition M (W A : Type) : Type := tester W -> res A * tester W.

Definition ret {W A} (a : A) : M W A := fun s => (Val a, s).

Definition bind {W A B} (m : M W A) (k : A -> M W B) : M W B :=
  fun s =>
    match m s with
    | (Val a, s') => k a s'
    | (Exc x, s') => (Exc x, s')
    end.

Definition raise {W A} (x : raised) : M W A := fun s => (Exc x, s).

(** [try: m except ...: h]; the handler table answers [None] for what no
    clause matches, which then keeps propagating. *)
Definition try_except {W A} (m : M W A) (h : raised -> option (M W A)) : M W A :=
  fun s =>
    match m s with
    | (Val a, s') => (Val a, s')
    | (Exc x, s') =>
        match h x with
        | Some k => k s'
        | None => (Exc x, s')
        end
    end.

Definition get {W A} (f : tester W -> A) : M W A := fun s => (Val (f s), s).

Declare Scope py_scope.
Delimit Scope py_scope with py.
Notation "x <- m ;; k" := (bind m (fun x => k))
  (at level 100, m at next level, right associativity) : py_scope.
Notation "m ;; k" := (bind m (fun _ => k))
  (at level 100, right associativity) : py_scope.
Open Scope py_scope.

Definition log {W} (lvl : level) (fmt : string) (args : list arg) : M W unit :=
  fun s => (Val tt, emit (EvLog lvl fmt args) s).

Definition print {W} (fmt : string) (args : list arg) : M W unit :=
  fun s => (Val tt, emit (EvPrint fmt args) s).

Definition sys_exit {W A} (code : Z) : M W A := raise (SystemExit code).

(** A call into the environment: recorded, then returns or raises. *)
Definition call {W A} (ev : event) (op : W -> (A + exn) * W) : M W A :=
  fun s =>
    let '(r, w) := op (world s) in
    let s' := set_world w (emit ev s) in
    match r with
    | inl a => (Val a, s')
    | inr e => (Exc (Raise e), s')
    end.

Definition nl : string := String (ascii_of_N 10) EmptyString.

Fixpoint str_mul (c : string) (n : nat) : string :=
  match n with
  | O => EmptyString
  | S n' => c ++ str_mul c n'
  end.

Definition rule : string := Eval cbv in str_mul "=" 60.

Section Sequencer.

Context {W : Type} {E : Environment W}.

Local Abbreviation M := (M W).

(** *** pyserial and time, as used by the program *)

(** [self.serial_conn = serial.Serial(port=..., baudrate=..., 8N1,
    timeout=2.0, write_timeout=2.0)]: the assignment happens only when
    the constructor returns. *)
Definition Serial_new (p : string) (b : Z) : M unit :=
  fun s =>
    let '(r, w) := env_open p b (world s) in
    let s' := set_world w (emit (EvSerial p b) s) in
    match r with
    | inl _ => (Val tt, set_conn (Some {| is_open := true |}) s')
    | inr e => (Exc (Raise e), s')
    end.

Definition Serial_close : M unit :=
  fun s =>
    let '(r, w) := env_close (world s) in
    let s' := set_world w (emit EvClose s) in
    match r with
    | inl _ => (Val tt, set_conn (Some {| is_open := false |}) s')
    | inr e => (Exc (Raise e), s')
    end.

Definition reset_input_buffer : M unit := call EvResetInput env_reset_input_buffer.
Definition reset_output_buffer : M unit := call EvResetOutput env_reset_output_buffer.
Definition write (packet : bytes) : M Z := call (EvWrite packet) (env_write packet).
Definition flush : M unit := call EvFlush env_flush.
Definition in_waiting : M Z := call EvInWaiting env_in_waiting.
Definition read (size : Z) : M bytes := call (EvRead size) (env_read size).
Definition sleep (seconds : Q) : M unit := call (EvSleep seconds) (env_sleep seconds).

(** *** Packet constants *)

Definition OFFLINE_QUERY_PACKET : bytes :=
  Eval cbv in literal (fromhex "aa55807f00000001fe").
Definition REMOVE_REGISTER_PACKET : bytes :=
  Eval cbv in literal (fromhex "aa55807f0002000200").
Definition ALLOCATE_REGISTER_ADDRESS_PACKET : bytes :=
  Eval cbv in literal (fromhex "aa55807f000011313330303053535531323530303039381105a9").
Definition READ_DATA_PACKET : bytes :=
  Eval cbv in literal (fromhex "aa5580110101000192").

(** *** connect *)

Definition connect_body : M bool :=
  p <- get port;;
  b <- get baudrate;;
  log INFO "Attempting to connect to {}" [AStr p];;
  log INFO "Configuration: {} baud, 8N1" [AInt b];;
  Serial_new p b;;
  reset_input_buffer;;
  reset_output_buffer;;
  log INFO "Successfully connected to {}" [AStr p];;
  ret true.

Definition connect_handlers (x : raised) : option (M bool) :=
  match x with
  | Raise e =>
      if is_SerialException e then
        Some (p <- get port;;
              log ERROR "Failed to connect to {}: {}" [AStr p; AExn e];;
              ret false)
      else if is_Exception e then
        Some (log ERROR "Unexpected error during connection: {}" [AExn e];;
              ret false)
      else None
  | SystemExit _ => None
  end.

Definition connect : M bool := try_except connect_body connect_handlers.

(** *** disconnect *)

Definition disconnect : M unit :=
  o <- get channel_open;;
  if o then
    Serial_close;;
    log INFO "Serial connection closed" []
  else ret tt.

(** *** send_packet *)

Definition send_packet_body (packet : bytes) (packet_name : string)
  : M (bool * option bytes) :=
  let packet_hex := hex packet in
  log DEBUG "Sending {}: {}" [AStr packet_name; AStr packet_hex];;
  reset_input_buffer;;
  bytes_written <- write packet;;
  if negb (bytes_written =? len packet) then
    log ERROR "Failed to send complete packet. Sent {}/{} bytes"
      [AInt bytes_written; AInt (len packet)];;
    ret (false, None)
  else
    flush;;
    log DEBUG "Successfully sent {} bytes" [AInt bytes_written];;
    sleep 0.5;;
    n <- in_waiting;;
    if n >? 0 then
      size <- in_waiting;;
      response <- read size;;
      log INFO "Received response ({} bytes): {}"
        [AInt (len response); AStr (hex response)];;
      ret (true, Some response)
    else
      log DEBUG "No response received" [];;
      ret (true, None).

Definition send_packet_handlers (x : raised) : option (M (bool * option bytes)) :=
  match x with
  | Raise e =>
      if is_SerialTimeoutException e then
        Some (log ERROR "Timeout while sending packet" [];;
              ret (false, None))
      else if is_SerialException e then
        Some (log ERROR "Serial error while sending packet: {}" [AExn e];;
              ret (false, None))
      else if is_Exception e then
        Some (log ERROR "Unexpected error while sending packet: {}" [AExn e];;
              ret (false, None))
      else None
  | SystemExit _ => None
  end.

Definition send_packet (packet : bytes) (packet_name : string)
  : M (bool * option bytes) :=
  o <- get channel_open;;
  if negb o then
    log ERROR "Serial connection not established" [];;
    ret (false, None)
  else
    try_except (send_packet_body packet packet_name) send_packet_handlers.

(** *** send_packet_multiple_times *)

(** The body of [for i in range(count)], for the [n] indices from [i] on;
    [successful] is the local counter. *)
Fixpoint transmissions (packet : bytes) (packet_name : string)
    (count : Z) (interval : Q) (n : nat) (i : Z) (successful : Z) : M Z :=
  match n with
  | O => ret successful
  | S n' =>
      log INFO "Transmission {}/{}" [AInt (i + 1); AInt count];;
      r <- send_packet packet packet_name;;
      successful' <-
        (if fst r then
           log INFO "✓ Transmission {} successful" [AInt (i + 1)];;
           ret (successful + 1)
         else
           log WARNING "✗ Transmission {} failed" [AInt (i + 1)];;
           ret successful);;
      (if i <? count - 1 then
         log DEBUG "Waiting {} seconds before next transmission" [ASec interval];;
         sleep interval
       else ret tt);;
      transmissions packet packet_name count interval n' (i + 1) successful'
  end.

Definition send_packet_multiple_times (packet : bytes) (packet_name : string)
    (count : Z) (interval : Q) : M Z :=
  log INFO "Starting {} test sequence" [AStr packet_name];;
  log INFO "Will send packet {} times with {}s intervals" [AInt count; ASec interval];;
  successful <- transmissions packet packet_name count interval (Z.to_nat count) 0 0;;
  log INFO "Completed {} test sequence: {}/{} successful"
    [AStr packet_name; AInt successful; AInt count];;
  ret successful.

(** *** run_full_test *)

Definition banner (title : string) : M unit :=
  log INFO (nl ++ rule) [];;
  log INFO title [];;
  log INFO rule [].

Definition run_full_test_body : M bool :=
  log INFO rule [];;
  log INFO "Starting RS485 Communication Test" [];;
  log INFO "Test started at: {}" [ANow];;
  log INFO rule [];;
  banner "PHASE 1: Off-line Query Data Test";;
  phase1_success <-
    send_packet_multiple_times OFFLINE_QUERY_PACKET "Off-line Query" 5 2.0;;
  sleep 2;;
  banner "PHASE 2: Remove Register Data Test";;
  phase2_success <-
    send_packet_multiple_times REMOVE_REGISTER_PACKET "Remove Register" 5 2.0;;
  sleep 2;;
  banner "PHASE 3: Off-line Query Data Test (Repeated)";;
  phase3_success <-
    send_packet_multiple_times OFFLINE_QUERY_PACKET "Off-line Query (Repeated)" 5 2.0;;
  sleep 2;;
  banner "PHASE 4: Allocate Register Address Test";;
  phase4_success <-
    send_packet_multiple_times ALLOCATE_REGISTER_ADDRESS_PACKET
      "Allocate Register Address" 5 2.0;;
  sleep 2;;
  banner "PHASE 5: Read Data Test";;
  phase5_success <-
    send_packet_multiple_times READ_DATA_PACKET "Read Data" 5 2.0;;
  banner "TEST SUMMARY";;
  log INFO "Phase 1 (Off-line Query):      {}/5 successful" [AInt phase1_success];;
  log INFO "Phase 2 (Remove Register):     {}/5 successful" [AInt phase2_success];;
  log INFO "Phase 3 (Off-line Query Rep.): {}/5 successful" [AInt phase3_success];;
  log INFO "Phase 4 (Allocate Address):    {}/5 successful" [AInt phase4_success];;
  log INFO "Phase 5 (Read Data):           {}/5 successful" [AInt phase5_success];;
  log INFO "Total: {}/25 successful"
    [AInt (phase1_success + phase2_success + phase3_success
           + phase4_success + phase5_success)];;
  ret true.

Definition run_full_test_handlers (x : raised) : option (M bool) :=
  match x with
  | Raise e =>
      if is_KeyboardInterrupt e then
        Some (log WARNING (nl ++ "Test interrupted by user") [];;
              ret false)
      else if is_Exception e then
        Some (log ERROR "Unexpected error during test: {}" [AExn e];;
              ret false)
      else None
  | SystemExit _ => None
  end.

Definition run_full_test : M bool :=
  try_except run_full_test_body run_full_test_handlers.

(** *** main

    The tester is built by the caller ([init]); [main] is the [try]
    statement.  It always ends in [sys.exit]. *)

Definition main_body : M unit :=
  ok <- connect;;
  (if negb ok then
     p <- get port;;
     print (nl ++ "ERROR: Failed to connect to {}") [AStr p];;
     print "Please check:" [];;
     print "  1. The device is connected" [];;
     print "  2. The port path is correct" [];;
     print "  3. You have proper permissions (try: sudo usermod -a -G dialout $USER)" [];;
     print "  4. No other program is using the port" [];;
     sys_exit 1
   else ret tt);;
  success <- run_full_test;;
  disconnect;;
  sys_exit (if success : bool then 0 else 1).

Definition main_handlers (x : raised) : option (M unit) :=
  match x with
  | Raise e =>
      if is_Exception e then
        Some (print (nl ++ "FATAL ERROR: {}") [AExn e];;
              sys_exit 1)
      else None
  | SystemExit _ => None
  end.

Definition main : M unit := try_except main_body main_handlers.

End Sequencer.

(** ** What the environment did during one send

    [send_ok packet w r]: from environment state [w] every call of one
    send returns, the write reports the whole packet, and [r] is what was
    read ([None] when nothing was waiting). *)

Inductive send_ok {W} {E : Environment W} (packet : bytes) (w : W)
  : option bytes -> Prop :=
| send_ok_silent u1 w1 w2 u3 w3 u4 w4 n w5 :
    env_reset_input_buffer w = (inl u1, w1) ->
    env_write packet w1 = (inl (len packet), w2) ->
    env_flush w2 = (inl u3, w3) ->
    env_sleep 0.5 w3 = (inl u4, w4) ->
    env_in_waiting w4 = (inl n, w5) ->
    n <= 0 ->
    send_ok packet w None
| send_ok_reply u1 w1 w2 u3 w3 u4 w4 n w5 size w6 response w7 :
    env_reset_input_buffer w = (inl u1, w1) ->
    env_write packet w1 = (inl (len packet), w2) ->
    env_flush w2 = (inl u3, w3) ->
    env_sleep 0.5 w3 = (inl u4, w4) ->
    env_in_waiting w4 = (inl n, w5) ->
    0 < n ->
    env_in_waiting w5 = (inl size, w6) ->
    env_read size w6 = (inl response, w7) ->
    send_ok packet w (Some response).

(** [send_raises packet w e]: from [w], some call of one send raises [e],
    every call before it having returned and the write (when reached)
    having reported the whole packet. *)
Inductive send_raises {W} {E : Environment W} (packet : bytes) (w : W)
  : exn -> Prop :=
| raises_reset e w1 :
    env_reset_input_buffer w = (inr e, w1) ->
    send_raises packet w e
| raises_write u1 w1 e w2 :
    env_reset_input_buffer w = (inl u1, w1) ->
    env_write packet w1 = (inr e, w2) ->
    send_raises packet w e
| raises_flush u1 w1 w2 e w3 :
    env_reset_input_buffer w = (inl u1, w1) ->
    env_write packet w1 = (inl (len packet), w2) ->
    env_flush w2 = (inr e, w3) ->
    send_raises packet w e
| raises_sleep u1 w1 w2 u3 w3 e w4 :
    env_reset_input_buffer w = (inl u1, w1) ->
    env_write packet w1 = (inl (len packet), w2) ->
    env_flush w2 = (inl u3, w3) ->
    env_sleep 0.5 w3 = (inr e, w4) ->
    send_raises packet w e
| raises_in_waiting u1 w1 w2 u3 w3 u4 w4 e w5 :
    env_reset_input_buffer w = (inl u1, w1) ->
    env_write packet w1 = (inl (len packet), w2) ->
    env_flush w2 = (inl u3, w3) ->
    env_sleep 0.5 w3 = (inl u4, w4) ->
    env_in_waiting w4 = (inr e, w5) ->
    send_raises packet w e
| raises_in_waiting_again u1 w1 w2 u3 w3 u4 w4 n w5 e w6 :
    env_reset_input_buffer w = (inl u1, w1) ->
    env_write packet w1 = (inl (len packet), w2) ->
    env_flush w2 = (inl u3, w3) ->
    env_sleep 0.5 w3 = (inl u4, w4) ->
    env_in_waiting w4 = (inl n, w5) ->
    0 < n ->
    env_in_waiting w5 = (inr e, w6) ->
    send_raises packet w e
| raises_read u1 w1 w2 u3 w3 u4 w4 n w5 size w6 e w7 :
    env_reset_input_buffer w = (inl u1, w1) ->
    env_write packet w1 = (inl (len packet), w2) ->
    env_flush w2 = (inl u3, w3) ->
    env_sleep 0.5 w3 = (inl u4, w4) ->
    env_in_waiting w4 = (inl n, w5) ->
    0 < n ->
    env_in_waiting w5 = (inl size, w6) ->
    env_read size w6 = (inr e, w7) ->
    send_raises packet w e.

(** [partial_write packet w n]: the write returns [n], not the length of
    the packet. *)
Inductive partial_write {W} {E : Environment W} (packet : bytes) (w : W)
  : Z -> Prop :=
| partial_write_intro u1 w1 n w2 :
    env_reset_input_buffer w = (inl u1, w1) ->
    env_write packet w1 = (inl n, w2) ->
    n <> len packet ->
    partial_write packet w n.

(** The error conditions of one attempt: a write that times out, any
    other call that raises an Exception, or a partial write. *)
Inductive send_error {W} {E : Environment W} (packet : bytes) (w : W) : Prop :=
| error_raised e :
    send_raises packet w e -> is_Exception e = true -> send_error packet w
| error_partial n :
    partial_write packet w n -> send_error packet w.

(** An environment in which no interrupt is delivered: the calls of a
    send raise Exceptions only, and [time.sleep] returns. *)
Record uninterrupted {W} (E : Environment W) : Prop := {
  ui_reset_input : forall w e w',
    env_reset_input_buffer w = (inr e, w') -> is_Exception e = true;
  ui_write : forall p w e w',
    env_write p w = (inr e, w') -> is_Exception e = true;
  ui_flush : forall w e w',
    env_flush w = (inr e, w') -> is_Exception e = true;
  ui_in_waiting : forall w e w',
    env_in_waiting w = (inr e, w') -> is_Exception e = true;
  ui_read : forall n w e w',
    env_read n w = (inr e, w') -> is_Exception e = true;
  ui_sleep : forall q w e w',
    env_sleep q w = (inr e, w') -> False
}.

(** ** The trace of a phase, from the description of the phase driver

    A phase is [count] attempts; between consecutive attempts, and not
    after the last one, the driver waits [interval].  An attempt is
    recorded as the pair of its verdict and the events of its send. *)

Definition attempt_log : Type := bool * list event.

Definition announce_event (count i : Z) : event :=
  EvLog INFO "Transmission {}/{}" [AInt (i + 1); AInt count].

Definition verdict_event (i : Z) (ok : bool) : event :=
  if ok then EvLog INFO "✓ Transmission {} successful" [AInt (i + 1)]
  else EvLog WARNING "✗ Transmission {} failed" [AInt (i + 1)].

Definition attempt_events (count i : Z) (a : attempt_log) : list event :=
  announce_event count i :: snd a ++ [verdict_event i (fst a)].

Definition wait_events (interval : Q) : list event :=
  [EvLog DEBUG "Waiting {} seconds before next transmission" [ASec interval];
   EvSleep interval].

Fixpoint phase_events (count : Z) (interval : Q) (i : Z) (runs : list attempt_log)
  : list event :=
  match runs with
  | [] => []
  | a :: rest =>
      attempt_events count i a ++
      match rest with
      | [] => []
      | _ :: _ => wait_events interval ++ phase_events count interval (i + 1) rest
      end
  end.

Definition phase_header (packet_name : string) (count : Z) (interval : Q)
  : list event :=
  [EvLog INFO "Starting {} test sequence" [AStr packet_name];
   EvLog INFO "Will send packet {} times with {}s intervals"
     [AInt count; ASec interval]].

Definition phase_footer (packet_name : string) (count successful : Z) : list event :=
  [EvLog INFO "Completed {} test sequence: {}/{} successful"
     [AStr packet_name; AInt successful; AInt count]].

Definition successes (runs : list attempt_log) : Z :=
  Z.of_nat (List.length (filter fst runs)).

(** ** Views of a trace

    The protocol steps a trace shows: a phase announced by
    [send_packet_multiple_times], an attempt announced by its loop, and
    a packet handed to the port by [send_packet]. *)

Inductive step : Type :=
| PhaseStart (packet_name : string)
| Attempt (i count : Z)
| Send (packet_name packet_hex : string).

Definition step_of (e : event) : list step :=
  match e with
  | EvLog INFO fmt [AStr name] =>
      if fmt =? "Starting {} test sequence" then [PhaseStart name] else []
  | EvLog INFO fmt [AInt i; AInt count] =>
      if fmt =? "Transmission {}/{}" then [Attempt i count] else []
  | EvLog DEBUG fmt [AStr name; AStr h] =>
      if fmt =? "Sending {}: {}" then [Send name h] else []
  | _ => []
  end%string.

Definition steps (t : list event) : list step := flat_map step_of t.

(** The steps of the attempts numbered [i + 1] to [i + n] of a phase:
    each is announced, and hands the packet to the port when the channel
    is open. *)
Fixpoint attempt_steps (packet_name packet_hex : string) (count : Z)
    (open : bool) (i : Z) (n : nat) : list step :=
  match n with
  | O => []
  | S n' =>
      Attempt (i + 1) count ::
      (if open then [Send packet_name packet_hex] else []) ++
      attempt_steps packet_name packet_hex count open (i + 1) n'
  end.

Definition phase_steps (packet : bytes) (packet_name : string) (count : Z)
    (open : bool) : list step :=
  PhaseStart packet_name ::
  attempt_steps packet_name (hex packet) count open 0 (Z.to_nat count).

(** The run as the specification lists it: five phases in this order,
    five attempts each; the third phase sends the packet of the first. *)
Definition schedule : list (string * bytes) :=
  [("Off-line Query", OFFLINE_QUERY_PACKET);
   ("Remove Register", REMOVE_REGISTER_PACKET);
   ("Off-line Query (Repeated)", OFFLINE_QUERY_PACKET);
   ("Allocate Register Address", ALLOCATE_REGISTER_ADDRESS_PACKET);
   ("Read Data", READ_DATA_PACKET)].

Definition schedule_steps (open : bool) : list step :=
  flat_map (fun ph => phase_steps (snd ph) (fst ph) 5 open) schedule.

Definition is_attempt (x : step) : bool :=
  match x with Attempt _ _ => true | _ => false end.

Definition is_phase_start (x : step) : bool :=
  match x with PhaseStart _ => true | _ => false end.

(** Calls that open or close the port. *)
Definition is_open_call (e : event) : bool :=
  match e with EvSerial _ _ => true | _ => false end.

Definition is_close_call (e : event) : bool :=
  match e with EvClose => true | _ => false end.

Definition opens (t : list event) : nat := List.length (filter is_open_call t).
Definition closes (t : list event) : nat := List.length (filter is_close_call t).

(** Events that are neither a protocol step nor a life-cycle call. *)
Definition plain (e : event) : bool :=
  match step_of e with
  | [] => negb (is_open_call e) && negb (is_close_call e)
  | _ => false
  end.

(** Events that are not a life-cycle call. *)
Definition inner (e : event) : bool :=
  negb (is_open_call e) && negb (is_close_call e).

(** ** Simulated environments *)

(** A port in a steady condition: every call returns, the write answers
    [wr], nothing is ever waiting to be read. *)
Definition steady_bus (wr : bytes -> Z + exn) : Environment unit := {|
  env_open := fun _ _ w => (inl tt, w);
  env_reset_input_buffer := fun w => (inl tt, w);
  env_reset_output_buffer := fun w => (inl tt, w);
  env_write := fun p w => (wr p, w);
  env_flush := fun w => (inl tt, w);
  env_in_waiting := fun w => (inl 0, w);
  env_read := fun _ w => (inl [], w);
  env_close := fun w => (inl tt, w);
  env_sleep := fun _ w => (inl tt, w)
|}.

(** Accepts every write, never answers. *)
Definition quiet_bus : Environment unit := steady_bus (fun p => inl (len p)).

(** Every write times out. *)
Definition dead_bus : Environment unit :=
  steady_bus (fun _ => inr SerialTimeoutException).

(** Every write reports five bytes. *)
Definition short_bus : Environment unit := steady_bus (fun _ => inl 5).

(** A scripted port: each call consumes the next reply; when the script
    is used up every call returns (the write in full, nothing waiting). *)
Inductive reply : Type :=
| Pass
| Fault (e : exn)
| Number (n : Z)
| Data (b : bytes).

Definition next (w : list reply) : reply * list reply :=
  match w with
  | [] => (Pass, [])
  | r :: w' => (r, w')
  end.

Definition unit_reply (r : reply) : unit + exn :=
  match r with Fault e => inr e | _ => inl tt end.

Definition number_reply (default : Z) (r : reply) : Z + exn :=
  match r with Fault e => inr e | Number n => inl n | _ => inl default end.

Definition data_reply (r : reply) : bytes + exn :=
  match r with Fault e => inr e | Data b => inl b | _ => inl [] end.

Definition scripted_bus : Environment (list reply) := {|
  env_open := fun _ _ w => (unit_reply (fst (next w)), snd (next w));
  env_reset_input_buffer := fun w => (unit_reply (fst (next w)), snd (next w));
  env_reset_output_buffer := fun w => (unit_reply (fst (next w)), snd (next w));
  env_write := fun p w => (number_reply (len p) (fst (next w)), snd (next w));
  env_flush := fun w => (unit_reply (fst (next w)), snd (next w));
  env_in_waiting := fun w => (number_reply 0 (fst (next w)), snd (next w));
  env_read := fun _ w => (data_reply (fst (next w)), snd (next w));
  env_close := fun w => (unit_reply (fst (next w)), snd (next w));
  env_sleep := fun _ w => (unit_reply (fst (next w)), snd (next w))
|}.

(** The tester that [main] builds from the default arguments. *)
Definition default_tester {W} (w : W) : tester W :=
  init "/dev/ttyUSB0" 9600 "rs485_test.log" w.

(** The same tester with the port already open. *)
Definition connected_tester {W} (w : W) : tester W :=
  set_conn (Some {| is_open := true |}) (default_tester w).

(** Environment calls, as opposed to log and print lines. *)
Definition is_call (e : event) : bool :=
  match e with
  | EvLog _ _ _ | EvPrint _ _ => false
  | _ => true
  end.

Definition calls (t : list event) : list event := filter is_call t.

(** Both ways a run of the phase sequence can end. *)
Definition ran_to_completion {W} {E : Environment W} (s : tester W) : Prop :=
  exists b s', run_full_test_body s = (Val b, s').

Definition cut_short {W} {E : Environment W} (s : tester W) (e : exn) : Prop :=
  exists s', run_full_test_body s = (Exc (Raise e), s').

(** ** Judgements on computations *)

(** [s'] is [s] with the events [d] appended (and another environment
    state): the configuration and the connection object are the same. *)
Definition frame {W} (s s' : tester W) (d : list event) : Prop :=
  port s' = port s /\ baudrate s' = baudrate s /\ log_file s' = log_file s /\
  serial_conn s' = serial_conn s /\ trace s' = trace s ++ d.

(** [m] only appends events satisfying [P], keeps the connection object,
    and never exits the process. *)
Definition emits {W A} (P : event -> bool) (m : M W A) : Prop :=
  forall s, exists d,
    frame s (snd (m s)) d /\ forallb P d = true /\
    (forall c, fst (m s) <> Exc (SystemExit c)).

(** [returns m]: from every state [m] returns a value. *)
Definition returns {W A} (m : M W A) : Prop :=
  forall s, exists a s', m s = (Val a, s').

(** [self.serial_conn and self.serial_conn.is_open], on the object. *)
Definition conn_open (c : option Serial) : bool :=
  match c with Some x => is_open x | None => false end.

(** One finished attempt of [send_packet] on connection object [c]. *)
Definition send_run {W} {E : Environment W} (c : option Serial) (packet : bytes) (name : string)
    (a : attempt_log) : Prop :=
  exists (s0 : tester W) r s1,
    serial_conn s0 = c /\
    send_packet packet name s0 = (Val (fst a, r), s1) /\
    trace s1 = trace s0 ++ snd a.

(** A script that interrupts the pause after the second phase: connect
    makes 3 calls, a phase on a silent port 29, the pause is call 63. *)
Definition interrupted_after_phase_2 : list reply :=
  repeat Pass 62 ++ [Fault KeyboardInterrupt].

(** ** More views of a trace *)

(** The packets handed to [write], in order. *)
Definition write_of (e : event) : list bytes :=
  match e with EvWrite p => [p] | _ => [] end.

Definition writes (t : list event) : list bytes := flat_map write_of t.

Definition no_write (e : event) : bool :=
  match e with EvWrite _ => false | _ => true end.

(** The verdict lines of the phase driver, in order. *)
Definition verdict_of (e : event) : list bool :=
  match e with
  | EvLog INFO fmt [AInt _] =>
      if fmt =? "✓ Transmission {} successful" then [true] else []
  | EvLog WARNING fmt [AInt _] =>
      if fmt =? "✗ Transmission {} failed" then [false] else []
  | _ => []
  end%string.

Definition verdicts (t : list event) : list bool := flat_map verdict_of t.

Definition unjudged (e : event) : bool :=
  match verdict_of e with [] => true | _ => false end.

(** ** What the environment did during connect *)

(** The constructor and both buffer resets return; [w'] is the
    environment afterwards. *)
Inductive connect_ok {W} {E : Environment W} (p : string) (b : Z) (w : W)
  : W -> Prop :=
| connect_ok_intro u1 w1 u2 w2 u3 w3 :
    env_open p b w = (inl u1, w1) ->
    env_reset_input_buffer w1 = (inl u2, w2) ->
    env_reset_output_buffer w2 = (inl u3, w3) ->
    connect_ok p b w w3.

(** The constructor returns and one of the buffer resets raises [e]. *)
Inductive reset_raises {W} {E : Environment W} (p : string) (b : Z) (w : W)
  : exn -> Prop :=
| reset_raises_input u1 w1 e w2 :
    env_open p b w = (inl u1, w1) ->
    env_reset_input_buffer w1 = (inr e, w2) ->
    reset_raises p b w e
| reset_raises_output u1 w1 u2 w2 e w3 :
    env_open p b w = (inl u1, w1) ->
    env_reset_input_buffer w1 = (inl u2, w2) ->
    env_reset_output_buffer w2 = (inr e, w3) ->
    reset_raises p b w e.

(** Some call of connect raises [e]: the constructor, or a reset. *)
Inductive connect_raises {W} {E : Environment W} (p : string) (b : Z) (w : W)
  : exn -> Prop :=
| connect_raises_open e w1 :
    env_open p b w = (inr e, w1) ->
    connect_raises p b w e
| connect_raises_reset e :
    reset_raises p b w e ->
    connect_raises p b w e.

(** The write of a send fails: it raises an Exception, or reports a
    count that is not the length of the packet. *)
Inductive write_failed {W} {E : Environment W} (packet : bytes) (w : W) : Prop :=
| write_failed_partial n :
    partial_write packet w n -> write_failed packet w
| write_failed_raised u1 w1 e w2 :
    env_reset_input_buffer w = (inl u1, w1) ->
    env_write packet w1 = (inr e, w2) ->
    is_Exception e = true ->
    write_failed packet w.

(** ** The logger ([_setup_logging])

    [logging.getLogger("RS485Tester")] is one object per process: every
    tester constructed configures the same logger.  A record is passed to
    the handlers when its level is at least the level of the logger, and
    a handler emits it when it is at least the level of the handler. *)

Definition levelno (l : level) : Z :=
  match l with DEBUG => 10 | INFO => 20 | WARNING => 30 | ERROR => 40 end.

Inductive sink : Type :=
| FileSink (path : string)      (* logging.FileHandler(path) *)
| ConsoleSink.                  (* logging.StreamHandler(sys.stdout) *)

Record handler : Type := {
  h_sink : sink;
  h_level : level;
  h_fmt : string;
  h_datefmt : string
}.

Record logger : Type := {
  l_level : option level;       (* None is NOTSET *)
  l_handlers : list handler
}.

(** The logger before any tester exists. *)
Definition fresh_logger : logger := {| l_level := None; l_handlers := [] |}.

Definition _setup_logging (log_file : string) (lg : logger) : logger :=
  let detailed_formatter :=
    ("%(asctime)s - %(name)s - %(levelname)s - %(message)s", "%Y-%m-%d %H:%M:%S") in
  let console_formatter :=
    ("%(asctime)s - %(levelname)s - %(message)s", "%H:%M:%S") in
  let file_handler :=
    {| h_sink := FileSink log_file; h_level := DEBUG;
       h_fmt := fst detailed_formatter; h_datefmt := snd detailed_formatter |} in
  let console_handler :=
    {| h_sink := ConsoleSink; h_level := INFO;
       h_fmt := fst console_formatter; h_datefmt := snd console_formatter |} in
  {| l_level := Some DEBUG;
     l_handlers := l_handlers lg ++ [file_handler; console_handler] |}.

(** The level a logger without a level of its own inherits from the
    root logger. *)
Definition effective_level (lg : logger) : Z :=
  match l_level lg with
  | Some l => levelno l
  | None => 30
  end.

(** The sinks a record of level [lvl] is written to, in handler order
    (the last-resort handler of a logger without handlers is left out). *)
Definition deliver (lg : logger) (lvl : level) : list sink :=
  if effective_level lg <=? levelno lvl then
    map h_sink (filter (fun h => levelno (h_level h) <=? levelno lvl) (l_handlers lg))
  else [].

(** The logger after [n] testers were constructed with the log files
    [files] (first constructed first). *)
Definition constructed (files : list string) : logger :=
  fold_left (fun lg f => _setup_logging f lg) files fresh_logger.

(** ** Reasoning about runs *)

(** *** Frames: what a computation leaves alone *)

Section Runs.

Context {W : Type} {E : Environment W}.

Lemma frame_refl (s : tester W) : frame s s [].
Proof. unfold frame. rewrite app_nil_r. auto. Qed.

Lemma frame_trans (s1 s2 s3 : tester W) d1 d2 :
  frame s1 s2 d1 -> frame s2 s3 d2 -> frame s1 s3 (d1 ++ d2).
Proof.
  unfold frame. intros (Ha & Hb & Hc & Hd & He) (Ha' & Hb' & Hc' & Hd' & He').
  rewrite Ha', Hb', Hc', Hd', He', He, app_assoc. auto.
Qed.

Lemma frame_emit (s : tester W) ev : frame s (emit ev s) [ev].
Proof. unfold frame. cbn. auto. Qed.

Lemma frame_channel_open (s s' : tester W) d :
  frame s s' d -> channel_open s' = channel_open s.
Proof. intros (_ & _ & _ & H & _). unfold channel_open. now rewrite H. Qed.

Lemma emits_ret {A} P (a : A) : emits P (ret (W := W) a).
Proof.
  intros s. exists []. cbn. split; [apply frame_refl|]. split; [reflexivity|discriminate].
Qed.

Lemma emits_get {A} P (f : tester W -> A) : emits P (get f).
Proof.
  intros s. exists []. cbn. split; [apply frame_refl|]. split; [reflexivity|discriminate].
Qed.

Lemma emits_log P lvl fmt args :
  P (EvLog lvl fmt args) = true -> emits P (log (W := W) lvl fmt args).
Proof.
  intros H s. exists [EvLog lvl fmt args]. cbn [log fst snd forallb].
  rewrite H. split; [apply frame_emit|]. split; [reflexivity|discriminate].
Qed.

Lemma emits_call {A} P ev (op : W -> (A + exn) * W) :
  P ev = true -> emits P (call ev op).
Proof.
  intros H s. exists [ev]. unfold call.
  destruct (op (world s)) as [[a|e] w]; cbn [fst snd forallb]; rewrite H;
    (split; [unfold frame; cbn; auto|]); (split; [reflexivity|discriminate]).
Qed.

Lemma emits_bind {A B} P (m : M W A) (k : A -> M W B) :
  emits P m -> (forall a, emits P (k a)) -> emits P (bind m k).
Proof.
  intros Hm Hk s. unfold bind.
  destruct (Hm s) as (d1 & F1 & P1 & N1).
  destruct (m s) as [[a|x] s1]; cbn [fst snd] in *.
  - destruct (Hk a s1) as (d2 & F2 & P2 & N2).
    exists (d1 ++ d2). split; [eapply frame_trans; eauto|].
    split; [rewrite forallb_app, P1, P2; reflexivity|assumption].
  - exists d1. split; [exact F1|]. split; [exact P1|].
    intros c Hc. apply (N1 c). congruence.
Qed.

Lemma emits_try {A} P (m : M W A) (h : raised -> option (M W A)) :
  emits P m -> (forall x k, h x = Some k -> emits P k) ->
  emits P (try_except m h).
Proof.
  intros Hm Hh s. unfold try_except.
  destruct (Hm s) as (d1 & F1 & P1 & N1).
  destruct (m s) as [[a|x] s1]; cbn [fst snd] in *.
  - exists d1. split; [assumption|]. split; [assumption|discriminate].
  - destruct (h x) as [k|] eqn:Hx.
    + destruct (Hh x k Hx s1) as (d2 & F2 & P2 & N2).
      exists (d1 ++ d2). split; [eapply frame_trans; eauto|].
      split; [rewrite forallb_app, P1, P2; reflexivity|assumption].
    + exists d1. split; [exact F1|]. split; [exact P1|exact N1].
Qed.

Lemma emits_weaken {A} (P Q : event -> bool) (m : M W A) :
  (forall e, P e = true -> Q e = true) -> emits P m -> emits Q m.
Proof.
  intros H Hm s. destruct (Hm s) as (d & F & Pd & N).
  exists d. split; [assumption|]. split; [|assumption].
  rewrite forallb_forall in *. auto.
Qed.

Lemma plain_inner e : plain e = true -> inner e = true.
Proof. unfold plain, inner. destruct (step_of e); [auto|discriminate]. Qed.

Lemma plain_steps d : forallb plain d = true -> steps d = [].
Proof.
  induction d as [|e d IH]; cbn [forallb steps flat_map]; [reflexivity|].
  intros H. apply andb_prop in H. destruct H as [He Hd].
  unfold steps in IH. rewrite (IH Hd), app_nil_r.
  unfold plain in He. destruct (step_of e); [reflexivity|discriminate].
Qed.

Lemma inner_closes d : forallb inner d = true -> closes d = 0%nat.
Proof.
  unfold closes. induction d as [|e d IH]; cbn [forallb filter]; [reflexivity|].
  intros H. apply andb_prop in H. destruct H as [He Hd].
  unfold inner in He. apply andb_prop in He. destruct He as [_ He].
  destruct (is_close_call e); [discriminate|auto].
Qed.

Lemma inner_opens d : forallb inner d = true -> opens d = 0%nat.
Proof.
  unfold opens. induction d as [|e d IH]; cbn [forallb filter]; [reflexivity|].
  intros H. apply andb_prop in H. destruct H as [He Hd].
  unfold inner in He. apply andb_prop in He. destruct He as [He _].
  destruct (is_open_call e); [discriminate|auto].
Qed.

Lemma closes_app d1 d2 : closes (d1 ++ d2) = (closes d1 + closes d2)%nat.
Proof. unfold closes. now rewrite filter_app, length_app. Qed.

Lemma opens_app d1 d2 : opens (d1 ++ d2) = (opens d1 + opens d2)%nat.
Proof. unfold opens. now rewrite filter_app, length_app. Qed.

Lemma steps_app d1 d2 : steps (d1 ++ d2) = steps d1 ++ steps d2.
Proof. unfold steps. apply flat_map_app. Qed.

(** Solves [emits P m] for straight-line code of calls and logs. *)
Ltac emits_tac :=
  repeat first
    [ apply emits_ret
    | apply emits_get
    | apply emits_log; reflexivity
    | apply emits_call; reflexivity
    | apply emits_bind; [|intros]
    | match goal with
      | |- emits _ (if ?b then _ else _) => destruct b
      | |- emits _ (match ?x with _ => _ end) => destruct x
      end ].

Lemma send_packet_handlers_plain x k :
  send_packet_handlers (W := W) x = Some k -> emits plain k.
Proof.
  destruct x as [e|c]; [|discriminate].
  destruct e; cbn; intros H; inversion H; subst; emits_tac.
Qed.

Lemma send_packet_body_split packet name :
  exists rest,
    emits plain rest /\
    send_packet_body packet name =
      (log DEBUG "Sending {}: {}" [AStr name; AStr (hex packet)];; rest).
Proof.
  unfold send_packet_body. eexists. split.
  2: reflexivity.
  unfold reset_input_buffer, write, flush, sleep, in_waiting, read. emits_tac.
Qed.

Lemma emits_steps {A} (m : M W A) (s : tester W) :
  emits plain m -> steps (trace (snd (m s))) = steps (trace s).
Proof.
  intros H. destruct (H s) as (d & F & Pd & _).
  destruct F as (_ & _ & _ & _ & T). rewrite T, steps_app, (plain_steps d Pd).
  apply app_nil_r.
Qed.

Lemma emits_closes {A} (m : M W A) (s : tester W) :
  emits inner m ->
  closes (trace (snd (m s))) = closes (trace s) /\
  opens (trace (snd (m s))) = opens (trace s) /\
  serial_conn (snd (m s)) = serial_conn s.
Proof.
  intros H. destruct (H s) as (d & F & Pd & _).
  destruct F as (_ & _ & _ & C & T).
  rewrite T, closes_app, opens_app, (inner_closes d Pd), (inner_opens d Pd).
  auto with arith.
Qed.

Lemma send_packet_emits packet name : emits inner (send_packet packet name).
Proof.
  unfold send_packet. emits_tac. apply emits_try.
  - unfold send_packet_body, reset_input_buffer, write, flush, sleep,
      in_waiting, read. emits_tac.
  - intros x k H. eapply emits_weaken; [apply plain_inner|].
    eapply send_packet_handlers_plain; eassumption.
Qed.

Lemma send_packet_steps packet name (s : tester W) :
  steps (trace (snd (send_packet packet name s))) =
  steps (trace s) ++
  (if channel_open s then [Send name (hex packet)] else []).
Proof.
  unfold send_packet, bind, get. destruct (channel_open s); cbn [negb].
  - destruct (send_packet_body_split packet name) as (rest & Hr & ->).
    change (try_except (log DEBUG "Sending {}: {}" [AStr name; AStr (hex packet)];; rest)
              send_packet_handlers s)
      with (try_except rest send_packet_handlers
              (emit (EvLog DEBUG "Sending {}: {}" [AStr name; AStr (hex packet)]) s)).
    rewrite emits_steps.
    + cbn [emit trace]. rewrite steps_app. reflexivity.
    + apply emits_try; [assumption|]. apply send_packet_handlers_plain.
  - cbn. rewrite steps_app. reflexivity.
Qed.

(** *** Runs of the send and of the phase driver *)

Ltac norm_app :=
  repeat (rewrite <- app_assoc || rewrite <- app_comm_cons); cbn [app].

Ltac unfold_send :=
  cbv beta delta
    [send_packet send_packet_body send_packet_handlers bind ret get log call
     try_except reset_input_buffer write flush sleep in_waiting read raise].

Ltac state_simpl :=
  cbv beta iota;
  cbn [emit set_world set_conn world trace serial_conn port baudrate log_file
       fst snd negb].

(** Case analysis on the next call of the environment in the goal. *)
Ltac env_case t :=
  let a := fresh "a" in
  let e := fresh "e" in
  let w := fresh "w" in
  let Hw := fresh "Hw" in
  destruct t as [[a|e] w] eqn:Hw.

Ltac env_step :=
  match goal with
  | |- context [env_reset_input_buffer ?x] => env_case (env_reset_input_buffer x)
  | |- context [env_write ?p ?x] => env_case (env_write p x)
  | |- context [env_flush ?x] => env_case (env_flush x)
  | |- context [env_sleep ?q ?x] => env_case (env_sleep q x)
  | |- context [env_in_waiting ?x] => env_case (env_in_waiting x)
  | |- context [env_read ?n ?x] => env_case (env_read n x)
  | |- context [env_open ?p ?b ?x] => env_case (env_open p b x)
  | |- context [env_reset_output_buffer ?x] => env_case (env_reset_output_buffer x)
  | |- context [env_close ?x] => env_case (env_close x)
  end; state_simpl.

Lemma send_packet_closed packet name (s : tester W) :
  channel_open s = false ->
  send_packet packet name s =
    (Val (false, None),
     emit (EvLog ERROR "Serial connection not established" []) s).
Proof.
  intros H. unfold send_packet, bind, get. rewrite H. reflexivity.
Qed.

Ltac send_step :=
  first
    [ env_step
    | match goal with
      | |- context [?a =? len ?p] =>
          destruct (Z.eqb_spec a (len p)); [subst a|]; cbn [negb]; state_simpl
      | |- context [?n >? 0] =>
          destruct (Z.gtb_spec n 0); state_simpl
      end ].

Ltac pick_exn :=
  match goal with
  | H : _ = (inr ?e, _) |- _ => exists e
  end.

Lemma send_packet_cases packet name (s : tester W) :
  channel_open s = true ->
  (exists r, send_ok packet (world s) r /\
             fst (send_packet packet name s) = Val (true, r)) \/
  (exists n, partial_write packet (world s) n /\
             fst (send_packet packet name s) = Val (false, None)) \/
  (exists e, send_raises packet (world s) e /\
             fst (send_packet packet name s) =
               if is_Exception e then Val (false, None) else Exc (Raise e)).
Proof.
  intros H. unfold send_packet, bind, get. rewrite H. cbv beta iota delta [negb].
  unfold_send. state_simpl.
  repeat send_step.
  all: try (right; right; pick_exn; split;
            [ solve [econstructor; eauto]
            | match goal with e : exn |- _ => destruct e; reflexivity end ]).
  all: try (right; left; eexists; split;
            [ solve [econstructor; eauto] | reflexivity ]).
  all: try (left; eexists; split;
            [ solve [econstructor; eauto; lia] | reflexivity ]).
Qed.

Lemma transmissions_S packet name count interval n i successful (s : tester W) :
  transmissions packet name count interval (S n) i successful s =
  match send_packet packet name (emit (announce_event count i) s) with
  | (Val r, s1) =>
      let s2 := emit (verdict_event i (fst r)) s1 in
      let successful' := if fst r then successful + 1 else successful in
      if i <? count - 1 then
        match sleep interval
                (emit (EvLog DEBUG "Waiting {} seconds before next transmission"
                         [ASec interval]) s2) with
        | (Val _, s3) =>
            transmissions packet name count interval n (i + 1) successful' s3
        | (Exc x, s3) => (Exc x, s3)
        end
      else transmissions packet name count interval n (i + 1) successful' s2
  | (Exc x, s1) => (Exc x, s1)
  end.
Proof.
  cbn [transmissions]. unfold bind at 1. unfold log at 1. unfold bind at 1.
  unfold announce_event.
  destruct (send_packet packet name _) as [[[b r]|x] s1]; [|reflexivity].
  cbn [fst]. unfold verdict_event.
  destruct b; destruct (i <? count - 1); reflexivity.
Qed.

Lemma sleep_emits interval : emits plain (sleep interval).
Proof. unfold sleep. apply emits_call. reflexivity. Qed.

Lemma sleep_frame interval (s : tester W) :
  frame s (snd (sleep interval s)) [EvSleep interval].
Proof.
  unfold sleep, call. destruct (env_sleep interval (world s)) as [[u|e] w];
    unfold frame; cbn; auto.
Qed.

Lemma transmissions_emits packet name count interval n :
  forall i successful,
    emits inner (transmissions packet name count interval n i successful).
Proof.
  induction n as [|n IH]; intros i successful; cbn [transmissions].
  - apply emits_ret.
  - apply emits_bind; [apply emits_log; reflexivity|intros _].
    apply emits_bind; [apply send_packet_emits|intros r].
    apply emits_bind; [emits_tac|intros successful'].
    apply emits_bind; [|intros _; apply IH].
    unfold sleep. emits_tac.
Qed.

Lemma send_packet_multiple_times_emits packet name count interval :
  emits inner (send_packet_multiple_times packet name count interval).
Proof.
  unfold send_packet_multiple_times.
  apply emits_bind; [apply emits_log; reflexivity|intros _].
  apply emits_bind; [apply emits_log; reflexivity|intros _].
  apply emits_bind; [apply transmissions_emits|intros k].
  emits_tac.
Qed.

(** The shape of the trace of the loop, when it returns. *)
Lemma transmissions_shape packet name count interval :
  forall n i successful (s : tester W) k s',
    n = O \/ i + Z.of_nat n = count ->
    transmissions packet name count interval n i successful s = (Val k, s') ->
    exists runs,
      List.length runs = n /\
      k = successful + successes runs /\
      Forall (send_run (serial_conn s) packet name) runs /\
      serial_conn s' = serial_conn s /\
      trace s' = trace s ++ phase_events count interval i runs.
Proof.
  induction n as [|n IH]; intros i successful s k s' Hn H.
  - cbn in H. inversion H; subst. exists []. cbn.
    rewrite app_nil_r. unfold successes. cbn. repeat split; auto. lia.
  - rewrite transmissions_S in H.
    destruct Hn as [Hn|Hn]; [discriminate|].
    set (s0 := emit (announce_event count i) s) in *.
    destruct (send_packet_emits packet name s0) as (d & F & _ & _).
    destruct (send_packet packet name s0) as [[[b r]|x] s1] eqn:Hsend;
      [|discriminate].
    cbn [fst snd] in *.
    destruct F as (_ & _ & _ & C1 & T1).
    assert (Hrun : send_run (serial_conn s) packet name (b, d)).
    { exists s0, r, s1. repeat split; assumption. }
    clear Hsend. subst s0. cbn [emit serial_conn trace] in C1, T1.
    destruct (i <? count - 1) eqn:Hi.
    + pose proof (sleep_frame interval
        (emit (EvLog DEBUG "Waiting {} seconds before next transmission"
                 [ASec interval]) (emit (verdict_event i b) s1))) as F3.
      destruct (sleep interval _) as [[u|x] s3]; [|discriminate].
      cbn [snd] in F3. destruct F3 as (_ & _ & _ & C3 & T3).
      cbn [emit serial_conn trace] in C3, T3.
      apply IH in H; [|right; lia].
      destruct H as (runs & L & K & R & C & T).
      exists ((b, d) :: runs). split; [cbn; congruence|].
      split.
      { rewrite K. unfold successes. cbn [filter fst].
        destruct b; cbn [List.length]; lia. }
      split.
      { constructor; [assumption|]. rewrite C3, C1 in R. exact R. }
      split; [congruence|].
      rewrite T, T3, T1.
      destruct runs as [|a runs].
      { apply Z.ltb_lt in Hi. cbn in L. lia. }
      change (phase_events count interval i ((b, d) :: a :: runs))
        with (attempt_events count i (b, d) ++ wait_events interval ++
              phase_events count interval (i + 1) (a :: runs)).
      unfold attempt_events, wait_events. cbn [fst snd].
      norm_app. reflexivity.
    + apply IH in H.
      2:{ left. apply Z.ltb_ge in Hi. lia. }
      destruct H as (runs & L & K & R & C & T).
      assert (n = O) by (apply Z.ltb_ge in Hi; lia). subst n.
      destruct runs; [|discriminate].
      exists [(b, d)]. split; [reflexivity|].
      split.
      { rewrite K. unfold successes. cbn [filter fst].
        destruct b; cbn [List.length]; lia. }
      split; [constructor; [assumption|constructor]|].
      split; [cbn [emit serial_conn] in C; congruence|].
      rewrite T. cbn [emit trace phase_events]. unfold attempt_events.
      cbn [fst snd]. rewrite T1.
      norm_app. reflexivity.
Qed.

Lemma successes_bounds runs :
  0 <= successes runs <= Z.of_nat (List.length runs).
Proof.
  unfold successes. split; [lia|].
  apply Nat2Z.inj_le. exact (filter_length_le fst runs).
Qed.

(** *** Inversion of runs that return *)

Lemma bind_inv {A B} (m : M W A) (k : A -> M W B) (s : tester W) b s' :
  bind m k s = (Val b, s') ->
  exists a s1, m s = (Val a, s1) /\ k a s1 = (Val b, s').
Proof.
  unfold bind. destruct (m s) as [[a|x] s1]; [eauto|discriminate].
Qed.

Lemma plain_run {A} (m : M W A) (s : tester W) r s1 :
  emits plain m -> m s = (r, s1) ->
  steps (trace s1) = steps (trace s) /\ serial_conn s1 = serial_conn s.
Proof.
  intros Hm H. pose proof (emits_steps m s Hm) as St.
  destruct (Hm s) as (d & F & _ & _). rewrite H in *. cbn [snd] in *.
  split; [assumption|apply F].
Qed.

Lemma banner_emits title : emits plain (banner (W := W) title).
Proof. unfold banner. emits_tac. Qed.

Lemma steps_emit (s : tester W) ev :
  steps (trace (emit ev s)) = steps (trace s) ++ step_of ev.
Proof. cbn [emit trace]. rewrite steps_app. cbn. now rewrite app_nil_r. Qed.

Lemma send_run_steps c packet name a :
  send_run c packet name a ->
  steps (snd a) = if conn_open c then [Send name (hex packet)] else [].
Proof.
  intros (s0 & r & s1 & C & H & T).
  pose proof (send_packet_steps packet name s0) as St.
  rewrite H in St. cbn [snd] in St. rewrite T, steps_app in St.
  apply app_inv_head in St. rewrite St. unfold channel_open, conn_open.
  now rewrite C.
Qed.

Lemma phase_events_steps c packet name count interval runs :
  Forall (send_run c packet name) runs ->
  forall i,
    steps (phase_events count interval i runs) =
    attempt_steps name (hex packet) count (conn_open c) i (List.length runs).
Proof.
  induction 1 as [|a runs Ha _ IH]; intros i; [reflexivity|].
  cbn [phase_events List.length attempt_steps]. unfold attempt_events.
  rewrite steps_app. cbn [steps flat_map]. fold (steps (snd a ++ [verdict_event i (fst a)])).
  rewrite steps_app, (send_run_steps _ _ _ _ Ha).
  assert (Hv : steps [verdict_event i (fst a)] = []) by (destruct (fst a); reflexivity).
  rewrite Hv, app_nil_r.
  change (step_of (announce_event count i)) with [Attempt (i + 1) count].
  cbn [app]. f_equal. f_equal.
  destruct runs as [|a' runs]; [reflexivity|].
  unfold wait_events. rewrite steps_app. rewrite IH. reflexivity.
Qed.

(** The shape of the trace of a phase, when it returns. *)
Lemma phase_shape packet name count interval (s : tester W) k s' :
  send_packet_multiple_times packet name count interval s = (Val k, s') ->
  exists runs,
    List.length runs = Z.to_nat count /\
    k = successes runs /\
    Forall (send_run (serial_conn s) packet name) runs /\
    serial_conn s' = serial_conn s /\
    trace s' = trace s ++ phase_header name count interval ++
               phase_events count interval 0 runs ++
               phase_footer name count k.
Proof.
  unfold send_packet_multiple_times. intros H.
  apply bind_inv in H. destruct H as (u1 & s1 & H1 & H). inversion H1; subst; clear H1.
  apply bind_inv in H. destruct H as (u2 & s2 & H2 & H). inversion H2; subst; clear H2.
  apply bind_inv in H. destruct H as (k' & s3 & H3 & H).
  apply bind_inv in H. destruct H as (u4 & s4 & H4 & H). inversion H4; subst; clear H4.
  inversion H; subst; clear H.
  apply transmissions_shape in H3; [|lia].
  destruct H3 as (runs & L & K & R & C & T).
  exists runs. cbn [emit serial_conn trace] in *.
  split; [assumption|]. split; [lia|]. split; [assumption|]. split; [assumption|].
  rewrite T. unfold phase_header, phase_footer. norm_app. reflexivity.
Qed.

Lemma phase_run_steps packet name count interval (s : tester W) k s' :
  send_packet_multiple_times packet name count interval s = (Val k, s') ->
  steps (trace s') = steps (trace s) ++ phase_steps packet name count (channel_open s) /\
  serial_conn s' = serial_conn s.
Proof.
  intros H. apply phase_shape in H. destruct H as (runs & L & K & R & C & T).
  split; [|assumption].
  rewrite T, !steps_app, (phase_events_steps _ _ _ _ _ _ R), L.
  unfold phase_steps.
  change (steps (phase_header name count interval)) with [PhaseStart name].
  change (steps (phase_footer name count k)) with (@nil step).
  rewrite app_nil_r. reflexivity.
Qed.

(** One step of a run that returns: split the first action off and
    record what it did to the steps and to the connection object. *)
Ltac run_inv H :=
  let a := fresh "a" in
  let s1 := fresh "s" in
  let Hm := fresh "Hm" in
  let St := fresh "St" in
  let Cn := fresh "Cn" in
  apply bind_inv in H; destruct H as (a & s1 & Hm & H);
  first
    [ apply phase_run_steps in Hm
    | apply plain_run in Hm;
      [|first [apply banner_emits | apply sleep_emits
              | apply emits_log; reflexivity]] ];
  destruct Hm as [St Cn].

Lemma run_full_test_body_run (s : tester W) b s' :
  run_full_test_body s = (Val b, s') ->
  b = true /\
  serial_conn s' = serial_conn s /\
  steps (trace s') = steps (trace s) ++ schedule_steps (channel_open s).
Proof.
  unfold run_full_test_body. intros H.
  repeat run_inv H.
  inversion H; subst; clear H.
  assert (Hc : serial_conn s' = serial_conn s) by congruence.
  split; [reflexivity|]. split; [exact Hc|].
  unfold channel_open in *.
  repeat match goal with
         | H : serial_conn _ = _ |- _ => rewrite H in *; clear H
         end.
  repeat match goal with
         | H : steps (trace _) = _ |- _ => rewrite H; clear H
         end.
  unfold schedule_steps, schedule. cbn [flat_map fst snd].
  rewrite <- !app_assoc, app_nil_r. reflexivity.
Qed.

(** *** Runs without interrupts return *)

Lemma uninterrupted_raises packet (w : W) e :
  uninterrupted E -> send_raises packet w e -> is_Exception e = true.
Proof.
  intros U H. destruct U.
  inversion H; subst; eauto.
Qed.

Lemma send_packet_returns packet name (s : tester W) :
  uninterrupted E ->
  exists b r s', send_packet packet name s = (Val (b, r), s').
Proof.
  intros U. destruct (channel_open s) eqn:Ho.
  - destruct (send_packet_cases packet name s Ho)
      as [(r & _ & H)|[(n & _ & H)|(e & He & H)]].
    + destruct (send_packet packet name s) as [x s']. cbn in H. subst. eauto.
    + destruct (send_packet packet name s) as [x s']. cbn in H. subst. eauto.
    + rewrite (uninterrupted_raises _ _ _ U He) in H.
      destruct (send_packet packet name s) as [x s']. cbn in H. subst. eauto.
  - rewrite (send_packet_closed _ _ _ Ho). eauto.
Qed.

Lemma sleep_returns interval (s : tester W) :
  uninterrupted E -> exists s', sleep interval s = (Val tt, s').
Proof.
  intros U. unfold sleep, call.
  destruct (env_sleep interval (world s)) as [[[]|e] w] eqn:H; [eauto|].
  exfalso. eapply ui_sleep; eassumption.
Qed.

Lemma transmissions_returns packet name count interval :
  uninterrupted E ->
  forall n i successful (s : tester W),
    exists k s',
      transmissions packet name count interval n i successful s = (Val k, s').
Proof.
  intros U. induction n as [|n IH]; intros i successful s.
  - cbn. unfold ret. eauto.
  - rewrite transmissions_S.
    destruct (send_packet_returns packet name
                (emit (announce_event count i) s) U) as (b & r & s1 & ->).
    cbn [fst]. cbv zeta.
    destruct (i <? count - 1).
    + destruct (sleep_returns interval
        (emit (EvLog DEBUG "Waiting {} seconds before next transmission"
                 [ASec interval]) (emit (verdict_event i b) s1)) U) as (s3 & ->).
      apply IH.
    + apply IH.
Qed.

Lemma bind_val {A B} (m : M W A) (k : A -> M W B) (s : tester W) a s1 :
  m s = (Val a, s1) -> bind m k s = k a s1.
Proof. intros H. unfold bind. now rewrite H. Qed.

Lemma bind_log {B} lvl fmt args (k : unit -> M W B) (s : tester W) :
  bind (log lvl fmt args) k s = k tt (emit (EvLog lvl fmt args) s).
Proof. reflexivity. Qed.

Lemma send_packet_multiple_times_returns packet name count interval (s : tester W) :
  uninterrupted E ->
  exists k s',
    send_packet_multiple_times packet name count interval s = (Val k, s').
Proof.
  intros U. unfold send_packet_multiple_times.
  rewrite !bind_log.
  destruct (transmissions_returns packet name count interval U (Z.to_nat count) 0 0
    (emit (EvLog INFO "Will send packet {} times with {}s intervals"
             [AInt count; ASec interval])
       (emit (EvLog INFO "Starting {} test sequence" [AStr name]) s)))
    as (k & s1 & H).
  rewrite (bind_val _ _ _ _ _ H). rewrite bind_log. unfold ret. eauto.
Qed.

Lemma returns_bind {A B} (m : M W A) (k : A -> M W B) :
  returns m -> (forall a, returns (k a)) -> returns (bind m k).
Proof.
  intros Hm Hk s. destruct (Hm s) as (a & s1 & H).
  rewrite (bind_val _ _ _ _ _ H). apply Hk.
Qed.

Lemma returns_log lvl fmt args : returns (log (W := W) lvl fmt args).
Proof. intros s. unfold log. eauto. Qed.

Lemma returns_ret {A} (a : A) : returns (ret (W := W) a).
Proof. intros s. unfold ret. eauto. Qed.

Lemma run_full_test_body_returns :
  uninterrupted E -> returns run_full_test_body.
Proof.
  intros U. unfold run_full_test_body, banner.
  repeat match goal with
         | |- returns (send_packet_multiple_times _ _ _ _) =>
             intros s; apply (send_packet_multiple_times_returns _ _ _ _ s U)
         | |- returns (sleep ?q) =>
             intros s; destruct (sleep_returns q s U) as (s' & H); eauto
         | |- returns (log _ _ _) => apply returns_log
         | |- returns (ret _) => apply returns_ret
         | |- returns (bind _ _) => apply returns_bind; [|intros]
         end.
Qed.

(** ** The single send *)

Ltac open_send H :=
  unfold send_packet, bind, get; rewrite H; cbv beta iota delta [negb];
  unfold_send; state_simpl.

(** Replay the calls the hypotheses describe. *)
Ltac replay :=
  repeat match goal with
         | H : ?t = (_, _) |- context [?t] => rewrite H; state_simpl
         end.

Lemma send_ok_returns packet name (s : tester W) r :
  channel_open s = true ->
  send_ok packet (world s) r ->
  fst (send_packet packet name s) = Val (true, r).
Proof.
  intros Ho H. open_send Ho.
  inversion H; subst; replay; rewrite Z.eqb_refl; state_simpl; replay.
  - destruct (Z.gtb_spec n 0); [lia|]. reflexivity.
  - destruct (Z.gtb_spec n 0); [|lia]. state_simpl. replay. reflexivity.
Qed.

Lemma send_raises_result packet name (s : tester W) e :
  channel_open s = true ->
  send_raises packet (world s) e ->
  fst (send_packet packet name s) =
    if is_Exception e then Val (false, None) else Exc (Raise e).
Proof.
  intros Ho H. open_send Ho.
  inversion H; subst; replay; rewrite ?Z.eqb_refl; state_simpl; replay;
    try (destruct (Z.gtb_spec n 0); [|lia]; state_simpl); replay;
    destruct e; reflexivity.
Qed.

Lemma partial_write_result packet name (s : tester W) n :
  channel_open s = true ->
  partial_write packet (world s) n ->
  fst (send_packet packet name s) = Val (false, None).
Proof.
  intros Ho H. open_send Ho.
  inversion H; subst; replay.
  rewrite (proj2 (Z.eqb_neq n (len packet))) by assumption. reflexivity.
Qed.

(** C3.  On an open channel [send_packet] returns success exactly when
    the write completed fully and no call of the send raised ([send_ok]:
    the buffer reset, the write, the flush, the settle sleep, the query
    of waiting bytes and the read all returned, and the write reported
    the length of the packet).  Whether bytes arrived does not matter: the
    response is absent when none were waiting ([send_ok_silent]) and
    present otherwise ([send_ok_reply]); the send succeeds in both. *)
Theorem send_packet_success_iff packet name (s : tester W) r :
  channel_open s = true ->
  (fst (send_packet packet name s) = Val (true, r) <->
   send_ok packet (world s) r).
Proof.
  intros Ho. split.
  - intros H.
    destruct (send_packet_cases packet name s Ho)
      as [(r' & Hok & H')|[(n & _ & H')|(e & _ & H')]];
      rewrite H in H'.
    + inversion H'; subst. assumption.
    + discriminate.
    + destruct (is_Exception e); discriminate.
  - apply send_ok_returns. assumption.
Qed.

(** A transport error after a complete write still fails the attempt:
    the read is inside the same [try]. *)
Lemma send_packet_fails_after_full_write packet name (s : tester W)
    u1 w1 w2 u3 w3 u4 w4 e w5 :
  channel_open s = true ->
  env_reset_input_buffer (world s) = (inl u1, w1) ->
  env_write packet w1 = (inl (len packet), w2) ->
  env_flush w2 = (inl u3, w3) ->
  env_sleep 0.5 w3 = (inl u4, w4) ->
  env_in_waiting w4 = (inr e, w5) ->
  is_Exception e = true ->
  fst (send_packet packet name s) = Val (false, None).
Proof.
  intros Ho H1 H2 H3 H4 H5 He.
  rewrite (send_raises_result packet name s e Ho), He; [reflexivity|].
  eapply raises_in_waiting; eassumption.
Qed.

(** C4.  Every error of an attempt on an open channel -- a write that
    times out, any call of the send that raises an Exception, a write
    that reports fewer bytes than the packet has -- makes [send_packet]
    return (false, absent); and from any state the only thing
    [send_packet] ever raises is a KeyboardInterrupt raised by the
    environment, never one of these errors. *)
Theorem send_packet_errors_caught packet name (s : tester W) :
  (channel_open s = true ->
   send_error packet (world s) ->
   fst (send_packet packet name s) = Val (false, None)) /\
  (forall x, fst (send_packet packet name s) = Exc x ->
             x = Raise KeyboardInterrupt).
Proof.
  split.
  - intros Ho [e Hr He|n Hp].
    + rewrite (send_raises_result packet name s e Ho Hr), He. reflexivity.
    + eapply partial_write_result; eassumption.
  - intros x H. destruct (channel_open s) eqn:Ho.
    + destruct (send_packet_cases packet name s Ho)
        as [(r' & _ & H')|[(n & _ & H')|(e & _ & H')]];
        rewrite H in H'; try discriminate.
      destruct e; cbn in H'; try discriminate. congruence.
    + rewrite (send_packet_closed _ _ _ Ho) in H. discriminate.
Qed.

(** C10.  Whenever [send_packet] returns failure the response is absent;
    on a channel that is not open it returns (false, absent) and does
    nothing but log the error. *)
Theorem send_failure_no_response packet name (s : tester W) :
  (forall r, fst (send_packet packet name s) = Val (false, r) -> r = None) /\
  (channel_open s = false ->
   send_packet packet name s =
     (Val (false, None),
      emit (EvLog ERROR "Serial connection not established" []) s)).
Proof.
  split; [|apply send_packet_closed].
  intros r H. destruct (channel_open s) eqn:Ho.
  - destruct (send_packet_cases packet name s Ho)
      as [(r' & _ & H')|[(n & _ & H')|(e & _ & H')]];
      rewrite H in H'; try discriminate.
    + congruence.
    + destruct (is_Exception e); [congruence|discriminate].
  - rewrite (send_packet_closed _ _ _ Ho) in H. cbn in H. congruence.
Qed.

(** ** The phase driver *)

(** C1.  For every count >= 0, a phase that returns reports a number of
    successful attempts between 0 and the number of attempts requested. *)
Theorem phase_successes_le_count packet name count interval (s : tester W) :
  0 <= count ->
  match fst (send_packet_multiple_times packet name count interval s) with
  | Val k => 0 <= k <= count
  | Exc _ => True
  end.
Proof.
  intros Hc.
  destruct (send_packet_multiple_times packet name count interval s)
    as [[k|x] s'] eqn:H; cbn [fst]; [|exact I].
  apply phase_shape in H. destruct H as (runs & L & K & _).
  pose proof (successes_bounds runs) as B. rewrite L in B.
  rewrite Z2Nat.id in B by assumption. rewrite K. exact B.
Qed.

(** C7.  When no interrupt is delivered, a phase of count >= 1 attempts
    returns, whatever the sends do: its trace is the header, then exactly
    [count] attempts, each one run of [send_packet] on the packet, with
    the wait of [interval] between consecutive attempts and none after
    the last ([phase_events]), then the footer; the value returned is the
    number of attempts that succeeded. *)
Theorem phase_driver_completes packet name count interval (s : tester W) :
  uninterrupted E ->
  1 <= count ->
  exists runs s',
    send_packet_multiple_times packet name count interval s =
      (Val (successes runs), s') /\
    Z.of_nat (List.length runs) = count /\
    Forall (send_run (serial_conn s) packet name) runs /\
    trace s' = trace s ++ phase_header name count interval ++
               phase_events count interval 0 runs ++
               phase_footer name count (successes runs).
Proof.
  intros U Hc.
  destruct (send_packet_multiple_times_returns packet name count interval s U)
    as (k & s' & H).
  destruct (phase_shape _ _ _ _ _ _ _ H) as (runs & L & K & R & _ & T).
  exists runs, s'. subst k.
  split; [assumption|]. split; [rewrite L; lia|]. split; assumption.
Qed.

(** ** The full run *)

Lemma run_full_test_body_emits : emits inner (run_full_test_body (W := W)).
Proof.
  unfold run_full_test_body.
  repeat match goal with
         | |- emits _ (send_packet_multiple_times _ _ _ _) =>
             apply send_packet_multiple_times_emits
         | |- emits _ (sleep _) =>
             eapply emits_weaken; [apply plain_inner|apply sleep_emits]
         | |- emits _ (banner _) =>
             eapply emits_weaken; [apply plain_inner|apply banner_emits]
         | |- emits _ (log _ _ _) => apply emits_log; reflexivity
         | |- emits _ (ret _) => apply emits_ret
         | |- emits _ (bind _ _) => apply emits_bind; [|intros]
         end.
Qed.

Lemma run_full_test_handlers_emits x k :
  run_full_test_handlers (W := W) x = Some k -> emits inner k.
Proof.
  destruct x as [e|c]; [|discriminate].
  destruct e; cbn; intros H; inversion H; subst; emits_tac.
Qed.

Lemma run_full_test_emits : emits inner (run_full_test (W := W)).
Proof.
  apply emits_try; [apply run_full_test_body_emits|].
  apply run_full_test_handlers_emits.
Qed.

(** [run_full_test] always returns: [true] when the body ran to its end,
    [false] when something cut it short. *)
Lemma run_full_test_result (s : tester W) :
  (exists s', ran_to_completion s /\ run_full_test s = (Val true, s')) \/
  (exists e s', cut_short s e /\ run_full_test s = (Val false, s')).
Proof.
  unfold run_full_test, try_except, ran_to_completion, cut_short.
  destruct (run_full_test_body_emits s) as (_ & _ & _ & N).
  destruct (run_full_test_body s) as [[b|[e|c]] s1] eqn:H.
  - left. destruct (run_full_test_body_run s b s1 H) as (-> & _).
    eauto.
  - right. exists e.
    destruct e; (eexists; split; [eexists; reflexivity|reflexivity]).
  - exfalso. apply (N c). reflexivity.
Qed.

Lemma run_full_test_outcome (s : tester W) :
  exists b s',
    run_full_test s = (Val b, s') /\
    (b = true <-> ran_to_completion s) /\
    (b = false <-> exists e, cut_short s e).
Proof.
  destruct (run_full_test_result s) as [(s' & Hc & H)|(e & s' & Hc & H)].
  - exists true, s'. split; [assumption|]. split; [tauto|].
    split; [discriminate|].
    intros (e & s1 & He). destruct Hc as (b & s2 & Hb).
    rewrite Hb in He. discriminate.
  - exists false, s'. split; [assumption|]. split; [|split; eauto].
    split; [discriminate|].
    intros (b & s2 & Hb). destruct Hc as (s1 & He).
    rewrite Hb in He. discriminate.
Qed.

(** C2.  Without interrupts [run_full_test] returns [true], and the
    steps it adds to the trace are those of the schedule of the
    specification: the five phases in their order, each announcing the
    attempts 1/5 to 5/5 and, on an open channel, handing its packet to the
    port at each of them; 5 phases and 25 attempts in all, and the packet
    of the third phase is the packet of the first. *)
Theorem run_full_test_schedule (s : tester W) :
  uninterrupted E ->
  exists s',
    run_full_test s = (Val true, s') /\
    steps (trace s') = steps (trace s) ++ schedule_steps (channel_open s) /\
    schedule_steps (channel_open s) =
      flat_map
        (fun ph =>
           PhaseStart (fst ph) ::
           flat_map
             (fun i =>
                Attempt i 5 ::
                (if channel_open s then [Send (fst ph) (hex (snd ph))] else []))
             [1; 2; 3; 4; 5])
        schedule /\
    map fst schedule =
      ["Off-line Query"; "Remove Register"; "Off-line Query (Repeated)";
       "Allocate Register Address"; "Read Data"]%string /\
    List.length (filter is_phase_start (schedule_steps (channel_open s))) = 5%nat /\
    List.length (filter is_attempt (schedule_steps (channel_open s))) = 25%nat /\
    nth_error (map snd schedule) 2 = nth_error (map snd schedule) 0.
Proof.
  intros U.
  destruct (run_full_test_body_returns U s) as (b & s' & H).
  destruct (run_full_test_body_run s b s' H) as (-> & _ & St).
  exists s'. split.
  { unfold run_full_test, try_except. rewrite H. reflexivity. }
  split; [assumption|].
  destruct (channel_open s); repeat split; reflexivity.
Qed.

(** C5.  [run_full_test] always returns.  It returns [true] exactly when
    the phase sequence ran to its end -- nothing in that depends on how
    many sends succeeded -- and [false] exactly when an interrupt or an
    error cut the sequence short. *)
Theorem run_full_test_completion (s : tester W) :
  (exists b, fst (run_full_test s) = Val b) /\
  (fst (run_full_test s) = Val true <-> ran_to_completion s) /\
  (fst (run_full_test s) = Val false <-> exists e, cut_short s e).
Proof.
  destruct (run_full_test_outcome s) as (b & s' & H & Ht & Hf).
  rewrite H. cbn [fst]. split; [eauto|].
  split.
  - rewrite <- Ht. split; congruence.
  - rewrite <- Hf. split; congruence.
Qed.

(** ** The channel life cycle *)

Ltac unfold_life :=
  cbv beta delta
    [connect connect_body connect_handlers disconnect main main_body
     main_handlers Serial_new Serial_close bind ret get log print call
     try_except raise sys_exit reset_input_buffer reset_output_buffer].

Ltac handler_simpl :=
  cbv beta iota delta [is_SerialException is_Exception is_KeyboardInterrupt
                       is_SerialTimeoutException];
  state_simpl.

Lemma calls_app t1 t2 : calls (t1 ++ t2) = calls t1 ++ calls t2.
Proof. apply filter_app. Qed.

Lemma connect_open_fails (s : tester W) e w' :
  env_open (port s) (baudrate s) (world s) = (inr e, w') ->
  is_Exception e = true ->
  exists s1,
    connect s = (Val false, s1) /\
    serial_conn s1 = serial_conn s /\
    calls (trace s1) = calls (trace s) ++ [EvSerial (port s) (baudrate s)].
Proof.
  intros H He. unfold_life. state_simpl. rewrite H. state_simpl.
  destruct e; try discriminate; handler_simpl;
    (eexists; split; [reflexivity|]; split; [reflexivity|]);
    cbn [trace emit set_world set_conn]; rewrite !calls_app; cbn;
    rewrite !app_nil_r; reflexivity.
Qed.

(** C6.  When the port cannot be opened (the constructor raises an
    Exception), [connect] reports the failure to its caller by returning
    [False] and leaves no connection object behind; [main] then exits with
    code 1.  The open is attempted once: it is the only call the whole
    process makes to its environment. *)
Theorem connect_failure_exits_1 (s : tester W) e w' :
  env_open (port s) (baudrate s) (world s) = (inr e, w') ->
  is_Exception e = true ->
  exists s1 s2,
    connect s = (Val false, s1) /\
    serial_conn s1 = serial_conn s /\
    main s = (Exc (SystemExit 1), s2) /\
    serial_conn s2 = serial_conn s /\
    calls (trace s2) = calls (trace s) ++ [EvSerial (port s) (baudrate s)].
Proof.
  intros H He.
  destruct (connect_open_fails s e w' H He) as (s1 & Hc & C1 & T1).
  exists s1. eexists. split; [assumption|]. split; [assumption|].
  unfold main, try_except, main_body.
  rewrite (bind_val _ _ _ _ _ Hc). cbn [negb].
  unfold_life. state_simpl.
  split; [reflexivity|]. split; [assumption|].
  cbn [trace emit set_world set_conn].
  rewrite !calls_app, T1. cbn. rewrite !app_nil_r. reflexivity.
Qed.

(** C8.  [disconnect] on a channel that is closed or was never opened
    returns and changes nothing: no close reaches the port.  After a
    [disconnect] that returned, another one is such a no-op; and two
    calls in sequence make at most one call of the underlying close. *)
Theorem disconnect_idempotent (s : tester W) :
  (channel_open s = false -> disconnect s = (Val tt, s)) /\
  (forall s1, disconnect s = (Val tt, s1) -> disconnect s1 = (Val tt, s1)) /\
  (closes (trace (snd ((disconnect;; disconnect) s))) <= closes (trace s) + 1)%nat.
Proof.
  assert (Hclosed : forall s0 : tester W,
             channel_open s0 = false -> disconnect s0 = (Val tt, s0)).
  { intros s0 H. unfold disconnect, bind, get. rewrite H. reflexivity. }
  split; [apply Hclosed|]. split.
  - intros s1 H. apply Hclosed.
    unfold disconnect, bind, get in H.
    destruct (channel_open s) eqn:Ho.
    + unfold Serial_close, log in H.
      destruct (env_close (world s)) as [[u|e] w]; inversion H; subst.
      reflexivity.
    + inversion H; subst. assumption.
  - unfold bind at 1.
    destruct (channel_open s) eqn:Ho.
    + unfold disconnect at 1. unfold bind, get. rewrite Ho.
      unfold Serial_close, log.
      destruct (env_close (world s)) as [[u|e] w].
      * rewrite Hclosed by reflexivity. cbn [snd emit trace set_conn set_world].
        rewrite !closes_app. cbn. lia.
      * cbn [snd emit trace set_world]. rewrite closes_app. cbn. lia.
    + rewrite (Hclosed s Ho), (Hclosed s Ho). cbn [snd]. lia.
Qed.

Lemma disconnect_open (s : tester W) :
  channel_open s = true ->
  disconnect s =
    match env_close (world s) with
    | (inl _, w) =>
        (Val tt,
         emit (EvLog INFO "Serial connection closed" [])
           (set_conn (Some {| is_open := false |})
              (set_world w (emit EvClose s))))
    | (inr e, w) => (Exc (Raise e), set_world w (emit EvClose s))
    end.
Proof.
  intros H. unfold disconnect, bind, get. rewrite H.
  unfold Serial_close, log.
  destruct (env_close (world s)) as [[u|e] w]; reflexivity.
Qed.

Lemma connect_true (s : tester W) s1 :
  connect s = (Val true, s1) ->
  channel_open s1 = true /\ closes (trace s1) = closes (trace s).
Proof.
  unfold_life. state_simpl. repeat env_step;
    try (match goal with e : exn |- _ => destruct e end; handler_simpl);
    intros H; inversion H; subst; clear H.
  split; [reflexivity|].
  cbn [trace emit set_world set_conn]. rewrite !closes_app. cbn. lia.
Qed.

(** C9, as the code has it.  Once [connect] has succeeded, however
    [run_full_test] ends -- the phase sequence ran to its end ([true]), or
    an interrupt or an error cut it short ([false]) -- [main] goes on to
    [disconnect]: the underlying close is called exactly once, and when it
    returns the channel is closed and the process exits with code 0 after
    a complete run and code 1 after one cut short. *)
Theorem main_closes_after_run (s : tester W) s1 :
  connect s = (Val true, s1) ->
  exists b s2,
    run_full_test s1 = (Val b, s2) /\
    (b = true <-> ran_to_completion s1) /\
    (b = false <-> exists e, cut_short s1 e) /\
    closes (trace (snd (main s))) = (closes (trace s) + 1)%nat /\
    (forall u w,
        env_close (world s2) = (inl u, w) ->
        fst (main s) = Exc (SystemExit (if b then 0 else 1)) /\
        channel_open (snd (main s)) = false).
Proof.
  intros Hc. destruct (connect_true s s1 Hc) as (Ho & Cl).
  destruct (run_full_test_outcome s1) as (b & s2 & Hr & Ht & Hf).
  destruct (emits_closes run_full_test s1 run_full_test_emits) as (Cl2 & _ & Cn2).
  rewrite Hr in Cl2, Cn2. cbn [snd] in Cl2, Cn2.
  assert (Ho2 : channel_open s2 = true).
  { unfold channel_open in *. rewrite Cn2. assumption. }
  exists b, s2. split; [exact Hr|].
  split; [exact Ht|]. split; [exact Hf|].
  assert (Hmain : main s =
    try_except (disconnect;; sys_exit (if b then 0 else 1)) main_handlers s2).
  { unfold main, try_except, main_body.
    rewrite (bind_val _ _ _ _ _ Hc). cbn [negb].
    unfold bind at 1. unfold ret at 1.
    rewrite (bind_val _ _ _ _ _ Hr). reflexivity. }
  rewrite Hmain. unfold try_except, bind. rewrite (disconnect_open s2 Ho2).
  unfold sys_exit, raise.
  destruct (env_close (world s2)) as [[u|e] w] eqn:Hclose.
  - cbn [main_handlers snd fst]. split.
    + cbn [emit trace set_conn set_world]. rewrite !closes_app, Cl2, Cl. cbn. lia.
    + intros _ _ _. split; reflexivity.
  - split.
    + destruct e; cbn [main_handlers is_Exception]; unfold bind, print, sys_exit, raise;
        cbn [snd emit trace set_conn set_world];
        rewrite !closes_app, Cl2, Cl; cbn; lia.
    + intros u w0 Hu. discriminate.
Qed.

(** ** More on connect *)

Ltac calls_simpl :=
  cbn [snd fst trace emit set_world set_conn serial_conn];
  unfold calls; rewrite ?filter_app; cbn [filter is_call];
  rewrite ?app_nil_r; norm_app.

Lemma connect_ok_result (s : tester W) w' :
  connect_ok (port s) (baudrate s) (world s) w' ->
  exists s1,
    connect s = (Val true, s1) /\
    world s1 = w' /\
    serial_conn s1 = Some {| is_open := true |} /\
    calls (trace s1) =
      calls (trace s) ++
      [EvSerial (port s) (baudrate s); EvResetInput; EvResetOutput].
Proof.
  intros H. inversion H; subst.
  unfold_life. state_simpl. replay.
  eexists. split; [reflexivity|]. split; [reflexivity|]. split; [reflexivity|].
  calls_simpl. reflexivity.
Qed.

Lemma connect_raises_result (s : tester W) e :
  connect_raises (port s) (baudrate s) (world s) e ->
  fst (connect s) = if is_Exception e then Val false else Exc (Raise e).
Proof.
  intros H. unfold_life. state_simpl.
  inversion H as [e' w1 H1|e' Hr]; subst.
  - replay. destruct e; reflexivity.
  - inversion Hr; subst; replay; destruct e; reflexivity.
Qed.

Lemma connect_cases (s : tester W) :
  (exists w', connect_ok (port s) (baudrate s) (world s) w') \/
  (exists e, connect_raises (port s) (baudrate s) (world s) e).
Proof.
  destruct (env_open (port s) (baudrate s) (world s)) as [[u1|e] w1] eqn:H1.
  - destruct (env_reset_input_buffer w1) as [[u2|e] w2] eqn:H2.
    + destruct (env_reset_output_buffer w2) as [[u3|e] w3] eqn:H3.
      * left. exists w3. econstructor; eassumption.
      * right. exists e. apply connect_raises_reset.
        eapply reset_raises_output; eassumption.
    + right. exists e. apply connect_raises_reset.
      eapply reset_raises_input; eassumption.
  - right. exists e. eapply connect_raises_open; eassumption.
Qed.

(** X1.  [connect] returns [True] exactly when the constructor and both
    buffer resets return.  The connection object is then stored and open,
    and the calls made are the open, the reset of the input buffer and
    the reset of the output buffer, in this order. *)
Theorem connect_succeeds_iff (s : tester W) :
  (fst (connect s) = Val true <->
   exists w', connect_ok (port s) (baudrate s) (world s) w') /\
  (forall s1,
      connect s = (Val true, s1) ->
      connect_ok (port s) (baudrate s) (world s) (world s1) /\
      serial_conn s1 = Some {| is_open := true |} /\
      calls (trace s1) =
        calls (trace s) ++
        [EvSerial (port s) (baudrate s); EvResetInput; EvResetOutput]).
Proof.
  assert (Hno : forall e, connect_raises (port s) (baudrate s) (world s) e ->
                          fst (connect s) <> Val true).
  { intros e He. rewrite (connect_raises_result s e He).
    destruct (is_Exception e); discriminate. }
  split.
  - split.
    + intros H. destruct (connect_cases s) as [Hok|(e & He)]; [assumption|].
      exfalso. exact (Hno e He H).
    + intros (w' & Hok). destruct (connect_ok_result s w' Hok) as (s1 & -> & _).
      reflexivity.
  - intros s1 H. destruct (connect_cases s) as [(w' & Hok)|(e & He)].
    + destruct (connect_ok_result s w' Hok) as (s1' & H' & Hw & Hc & Ht).
      rewrite H in H'. inversion H'; subst s1'. subst w'.
      split; [assumption|]. split; assumption.
    + exfalso. apply (Hno e He). rewrite H. reflexivity.
Qed.

(** X2.  Whichever call of [connect] raises an Exception -- the
    constructor or a buffer reset -- [connect] returns [False]; the only
    thing [connect] itself ever raises is a KeyboardInterrupt raised by
    the environment. *)
Theorem connect_errors_caught (s : tester W) :
  (forall e, connect_raises (port s) (baudrate s) (world s) e ->
             is_Exception e = true ->
             fst (connect s) = Val false) /\
  (forall x, fst (connect s) = Exc x -> x = Raise KeyboardInterrupt).
Proof.
  split.
  - intros e He Hx. rewrite (connect_raises_result s e He), Hx. reflexivity.
  - intros x H. destruct (connect_cases s) as [(w' & Hok)|(e & He)].
    + destruct (connect_ok_result s w' Hok) as (s1 & H' & _).
      rewrite H' in H. discriminate.
    + rewrite (connect_raises_result s e He) in H.
      destruct e; cbn in H; try discriminate. congruence.
Qed.

(** X3.  When the constructor returns and a buffer reset then raises an
    Exception, [connect] returns [False] although the port is open: the
    connection object is stored, open, and no close has been called. *)
Theorem connect_false_with_open_port (s : tester W) e :
  reset_raises (port s) (baudrate s) (world s) e ->
  is_Exception e = true ->
  exists s1,
    connect s = (Val false, s1) /\
    channel_open s1 = true /\
    closes (trace s1) = closes (trace s).
Proof.
  intros H He. unfold_life. state_simpl.
  inversion H; subst; replay;
    (destruct e; try discriminate; handler_simpl;
     eexists; (split; [reflexivity|]); (split; [reflexivity|]);
     cbn [trace emit set_world set_conn]; rewrite !closes_app; cbn; lia).
Qed.

(** ** More on the single send *)

(** X4.  The calls of a successful send, in order: the input buffer is
    cleared, the packet written, the output flushed, then the settle
    sleep of half a second, then the query of waiting bytes.  When bytes
    were waiting the query is made once more, followed by one read;
    otherwise nothing is read. *)
Theorem send_packet_call_order packet name (s : tester W) r :
  channel_open s = true ->
  send_ok packet (world s) r ->
  exists size,
    calls (trace (snd (send_packet packet name s))) =
      calls (trace s) ++
      [EvResetInput; EvWrite packet; EvFlush; EvSleep 0.5; EvInWaiting] ++
      match r with
      | Some _ => [EvInWaiting; EvRead size]
      | None => []
      end.
Proof.
  intros Ho H. open_send Ho.
  inversion H; subst; replay; rewrite Z.eqb_refl; state_simpl; replay.
  - destruct (Z.gtb_spec n 0); [lia|]. exists 0. calls_simpl. reflexivity.
  - destruct (Z.gtb_spec n 0); [|lia]. state_simpl. replay.
    exists size. calls_simpl. reflexivity.
Qed.

(** X5.  When the write fails -- it raises an Exception or reports a
    count other than the length of the packet -- the attempt ends there:
    the send returns (false, absent) and has called only the buffer reset
    and the write; nothing is flushed, awaited or read. *)
Theorem send_packet_stops_at_failed_write packet name (s : tester W) :
  channel_open s = true ->
  write_failed packet (world s) ->
  fst (send_packet packet name s) = Val (false, None) /\
  calls (trace (snd (send_packet packet name s))) =
    calls (trace s) ++ [EvResetInput; EvWrite packet].
Proof.
  intros Ho H. open_send Ho.
  destruct H as [n Hp|u1 w1 e w2 H1 H2 He].
  - inversion Hp; subst; replay.
    rewrite (proj2 (Z.eqb_neq n (len packet))) by assumption. state_simpl.
    split; [reflexivity|]. calls_simpl. reflexivity.
  - replay. destruct e; try discriminate; handler_simpl;
      (split; [reflexivity|]); calls_simpl; reflexivity.
Qed.

(** X6.  Neither a send, nor a phase, nor the full run ever opens or
    closes the port or touches the connection object and the
    configuration, whatever the environment does and however they end. *)
Theorem sequencer_keeps_connection packet name count interval (s : tester W) :
  let kept (s' : tester W) :=
    serial_conn s' = serial_conn s /\ port s' = port s /\
    baudrate s' = baudrate s /\
    opens (trace s') = opens (trace s) /\
    closes (trace s') = closes (trace s) in
  kept (snd (send_packet packet name s)) /\
  kept (snd (send_packet_multiple_times packet name count interval s)) /\
  kept (snd (run_full_test s)).
Proof.
  assert (K : forall A (m : M W A), emits inner m ->
            serial_conn (snd (m s)) = serial_conn s /\
            port (snd (m s)) = port s /\
            baudrate (snd (m s)) = baudrate s /\
            opens (trace (snd (m s))) = opens (trace s) /\
            closes (trace (snd (m s))) = closes (trace s)).
  { intros A m Hm. destruct (emits_closes m s Hm) as (Cl & Op & Cn).
    destruct (Hm s) as (d & (Hp & Hb & _) & _).
    repeat split; assumption. }
  cbv zeta. split; [|split].
  - apply K, send_packet_emits.
  - apply K, send_packet_multiple_times_emits.
  - apply K, run_full_test_emits.
Qed.

(** ** More on the phase driver *)

(** X7.  A phase of zero or a negative number of attempts sends nothing:
    it logs its header and its footer, calls neither the port nor the
    clock, and returns 0. *)
Theorem phase_without_attempts packet name count interval (s : tester W) :
  count <= 0 ->
  exists s',
    send_packet_multiple_times packet name count interval s = (Val 0, s') /\
    trace s' = trace s ++ phase_header name count interval ++
               phase_footer name count 0 /\
    world s' = world s.
Proof.
  intros Hc. unfold send_packet_multiple_times. rewrite !bind_log.
  replace (Z.to_nat count) with O by lia.
  cbn [transmissions]. unfold bind, ret, log.
  eexists. split; [reflexivity|]. split; [|reflexivity].
  cbn [trace emit]. unfold phase_header, phase_footer. norm_app. reflexivity.
Qed.

Lemma transmissions_closed packet name count interval :
  (forall q w, exists u w', env_sleep q w = (inl u, w')) ->
  forall n i successful (s : tester W),
    channel_open s = false ->
    n = O \/ i + Z.of_nat n = count ->
    exists s',
      transmissions packet name count interval n i successful s
        = (Val successful, s') /\
      channel_open s' = false /\
      calls (trace s') = calls (trace s) ++ repeat (EvSleep interval) (pred n).
Proof.
  intros Hs. induction n as [|n IH]; intros i successful s Ho Hn.
  - exists s. cbn. rewrite app_nil_r. auto.
  - destruct Hn as [Hn|Hn]; [discriminate|].
    rewrite transmissions_S.
    rewrite send_packet_closed by exact Ho.
    cbn [fst]. cbv zeta.
    destruct (i <? count - 1) eqn:Hi.
    + unfold sleep, call. cbn [world emit].
      destruct (Hs interval (world s)) as (u & w' & ->).
      edestruct IH as (s' & H & Ho' & Hc); [| |exists s'; split; [exact H|]].
      * unfold channel_open in *. cbn. exact Ho.
      * right. lia.
      * split; [assumption|]. rewrite Hc. calls_simpl.
        apply Z.ltb_lt in Hi. destruct n as [|n]; [lia|]. reflexivity.
    + edestruct IH as (s' & H & Ho' & Hc); [| |exists s'; split; [exact H|]].
      * unfold channel_open in *. cbn. exact Ho.
      * left. apply Z.ltb_ge in Hi. lia.
      * split; [assumption|]. rewrite Hc. calls_simpl.
        apply Z.ltb_ge in Hi. replace n with O by lia. reflexivity.
Qed.

(** X8.  On a channel that is not open a phase never reaches the port:
    provided the clock does not raise, it returns 0 and its only calls
    are the waits between consecutive attempts. *)
Theorem phase_on_closed_channel packet name count interval (s : tester W) :
  (forall q w, exists u w', env_sleep q w = (inl u, w')) ->
  channel_open s = false ->
  exists s',
    send_packet_multiple_times packet name count interval s = (Val 0, s') /\
    calls (trace s') =
      calls (trace s) ++ repeat (EvSleep interval) (Z.to_nat (count - 1)).
Proof.
  intros Hs Ho. unfold send_packet_multiple_times. rewrite !bind_log.
  edestruct (transmissions_closed packet name count interval Hs
               (Z.to_nat count) 0 0
               (emit (EvLog INFO "Will send packet {} times with {}s intervals"
                        [AInt count; ASec interval])
                  (emit (EvLog INFO "Starting {} test sequence" [AStr name]) s)))
    as (s1 & H & _ & Hc).
  - unfold channel_open in *. cbn. exact Ho.
  - lia.
  - rewrite (bind_val _ _ _ _ _ H), bind_log. unfold ret.
    eexists. split; [reflexivity|].
    replace (Z.to_nat (count - 1)) with (pred (Z.to_nat count)) by lia.
    revert Hc. calls_simpl. intros ->. reflexivity.
Qed.

Lemma writes_app t1 t2 : writes (t1 ++ t2) = writes t1 ++ writes t2.
Proof. apply flat_map_app. Qed.

Ltac writes_simpl :=
  cbn [snd fst trace emit set_world set_conn];
  rewrite ?writes_app; cbn [writes flat_map write_of app];
  rewrite ?app_nil_r.

Lemma send_packet_writes packet name (s : tester W) :
  exists m,
    (m <= 1)%nat /\
    writes (trace (snd (send_packet packet name s))) =
      writes (trace s) ++ repeat packet m.
Proof.
  destruct (channel_open s) eqn:Ho.
  - open_send Ho. repeat send_step;
      try (match goal with e : exn |- _ => destruct e end; handler_simpl);
      writes_simpl;
      first [ exists 0%nat; split; [lia|]; cbn [repeat];
              rewrite ?app_nil_r; reflexivity
            | exists 1%nat; split; [lia|]; cbn [repeat];
              rewrite <- ?app_assoc; reflexivity ].
  - rewrite (send_packet_closed _ _ _ Ho). exists 0%nat. split; [lia|].
    writes_simpl. reflexivity.
Qed.

Lemma transmissions_writes packet name count interval :
  forall n i successful (s : tester W),
    exists m,
      (m <= n)%nat /\
      writes (trace (snd (transmissions packet name count interval n i successful s)))
        = writes (trace s) ++ repeat packet m.
Proof.
  induction n as [|n IH]; intros i successful s.
  - exists 0%nat. split; [lia|]. cbn. now rewrite app_nil_r.
  - rewrite transmissions_S.
    destruct (send_packet_writes packet name (emit (announce_event count i) s))
      as (m1 & L1 & W1).
    revert W1. writes_simpl. intros W1.
    destruct (send_packet packet name (emit (announce_event count i) s))
      as [[r|x] s1]; cbn [snd] in W1.
    2:{ exists m1. split; [lia|]. exact W1. }
    cbv zeta.
    assert (Hv : forall t, writes (t ++ [verdict_event i (fst r)]) = writes t).
    { intros t. rewrite writes_app. destruct (fst r); cbn; apply app_nil_r. }
    destruct (i <? count - 1).
    + pose proof (sleep_frame interval
        (emit (EvLog DEBUG "Waiting {} seconds before next transmission"
                 [ASec interval]) (emit (verdict_event i (fst r)) s1))) as F3.
      destruct (sleep interval _) as [[u|x] s3]; cbn [snd] in F3;
        destruct F3 as (_ & _ & _ & _ & T3); cbn [emit trace] in T3.
      * destruct (IH (i + 1) (if fst r then successful + 1 else successful) s3)
          as (m2 & L2 & W2).
        exists (m1 + m2)%nat. split; [lia|].
        rewrite W2, T3. rewrite 2 writes_app. rewrite Hv, W1.
        cbn [writes flat_map write_of app].
        rewrite !app_nil_r, repeat_app, app_assoc. reflexivity.
      * exists m1. split; [lia|]. cbn [snd].
        rewrite T3. rewrite 2 writes_app. rewrite Hv, W1.
        cbn [writes flat_map write_of app].
        rewrite !app_nil_r. reflexivity.
    + destruct (IH (i + 1) (if fst r then successful + 1 else successful)
                  (emit (verdict_event i (fst r)) s1)) as (m2 & L2 & W2).
      exists (m1 + m2)%nat. split; [lia|].
      rewrite W2. cbn [emit trace]. rewrite Hv, W1, repeat_app, app_assoc.
      reflexivity.
Qed.

(** X9.  Whatever the environment does and however the phase ends, every
    write of a phase hands the port the packet of the phase, unchanged,
    and there are at most [count] writes. *)
Theorem phase_writes_only_its_packet packet name count interval (s : tester W) :
  exists m,
    (m <= Z.to_nat count)%nat /\
    writes (trace (snd (send_packet_multiple_times packet name count interval s)))
      = writes (trace s) ++ repeat packet m.
Proof.
  unfold send_packet_multiple_times. rewrite !bind_log.
  destruct (transmissions_writes packet name count interval (Z.to_nat count) 0 0
    (emit (EvLog INFO "Will send packet {} times with {}s intervals"
             [AInt count; ASec interval])
       (emit (EvLog INFO "Starting {} test sequence" [AStr name]) s)))
    as (m & L & Wm).
  exists m. split; [exact L|].
  revert Wm. writes_simpl. intros Wm.
  unfold bind at 1.
  destruct (transmissions packet name count interval (Z.to_nat count) 0 0 _)
    as [[k|x] s1]; cbn [snd] in *.
  - rewrite bind_log. unfold ret. writes_simpl. exact Wm.
  - exact Wm.
Qed.

Lemma send_packet_handlers_unjudged x k :
  send_packet_handlers (W := W) x = Some k -> emits unjudged k.
Proof.
  destruct x as [e|c]; [|discriminate].
  destruct e; cbn; intros H; inversion H; subst; emits_tac.
Qed.

Lemma send_packet_unjudged packet name : emits unjudged (send_packet packet name).
Proof.
  unfold send_packet. emits_tac. apply emits_try.
  - unfold send_packet_body, reset_input_buffer, write, flush, sleep,
      in_waiting, read. emits_tac.
  - apply send_packet_handlers_unjudged.
Qed.

Lemma verdicts_app t1 t2 : verdicts (t1 ++ t2) = verdicts t1 ++ verdicts t2.
Proof. apply flat_map_app. Qed.

Lemma unjudged_verdicts d : forallb unjudged d = true -> verdicts d = [].
Proof.
  induction d as [|e d IH]; cbn [forallb verdicts flat_map]; [reflexivity|].
  intros H. apply andb_prop in H. destruct H as [He Hd].
  unfold verdicts in IH. rewrite (IH Hd), app_nil_r.
  unfold unjudged in He. destruct (verdict_of e); [reflexivity|discriminate].
Qed.

Lemma send_run_verdicts c packet name a :
  send_run c packet name a -> verdicts (snd a) = [].
Proof.
  intros (s0 & r & s1 & _ & H & T).
  destruct (send_packet_unjudged packet name s0) as (d & F & Pd & _).
  rewrite H in F. cbn [snd] in F. destruct F as (_ & _ & _ & _ & T').
  rewrite T in T'. apply app_inv_head in T'. rewrite T'.
  apply unjudged_verdicts. assumption.
Qed.

Lemma phase_events_verdicts c packet name count interval runs :
  Forall (send_run c packet name) runs ->
  forall i, verdicts (phase_events count interval i runs) = map fst runs.
Proof.
  induction 1 as [|a runs Ha _ IH]; intros i; [reflexivity|].
  cbn [phase_events map]. unfold attempt_events.
  change (announce_event count i :: snd a ++ [verdict_event i (fst a)])
    with ([announce_event count i] ++ snd a ++ [verdict_event i (fst a)]).
  rewrite !verdicts_app, (send_run_verdicts _ _ _ _ Ha).
  assert (Hv : verdicts [verdict_event i (fst a)] = [fst a])
    by (destruct (fst a); reflexivity).
  rewrite Hv. cbn [verdicts flat_map verdict_of announce_event app].
  f_equal. destruct runs as [|a' runs]; [reflexivity|].
  unfold wait_events. rewrite verdicts_app, IH. reflexivity.
Qed.

Lemma filter_map_fst (runs : list attempt_log) :
  List.length (filter (fun b : bool => b) (map fst runs)) =
  List.length (filter fst runs).
Proof.
  induction runs as [|[b d] runs IH]; [reflexivity|].
  cbn [map filter fst]. destruct b; cbn [List.length]; congruence.
Qed.

(** X10.  The tally a phase returns is the tally it logged: a phase that
    returns has logged one verdict line per attempt, [count] in all, and
    the value returned is the number of lines that report success. *)
Theorem phase_result_matches_verdicts packet name count interval (s : tester W) k s' :
  send_packet_multiple_times packet name count interval s = (Val k, s') ->
  exists vs,
    verdicts (trace s') = verdicts (trace s) ++ vs /\
    List.length vs = Z.to_nat count /\
    k = Z.of_nat (List.length (filter (fun b : bool => b) vs)).
Proof.
  intros H. apply phase_shape in H. destruct H as (runs & L & K & R & _ & T).
  exists (map fst runs). split; [|split].
  - rewrite T, !verdicts_app, (phase_events_verdicts _ _ _ _ _ _ R).
    change (verdicts (phase_header name count interval)) with (@nil bool).
    change (verdicts (phase_footer name count k)) with (@nil bool).
    rewrite app_nil_r. reflexivity.
  - rewrite length_map. exact L.
  - rewrite filter_map_fst. exact K.
Qed.

(** ** More on the full run *)





(** ** More on the life cycle *)

Lemma disconnect_result (s : tester W) :
  (exists s1, disconnect s = (Val tt, s1) /\ channel_open s1 = false) \/
  (exists e s1, disconnect s = (Exc (Raise e), s1)).
Proof.
  destruct (channel_open s) eqn:Ho.
  - rewrite (disconnect_open s Ho).
    destruct (env_close (world s)) as [[u|e] w]; [left|right; eauto].
    eexists. split; reflexivity.
  - left. exists s. split; [|assumption].
    unfold disconnect, bind, get. rewrite Ho. reflexivity.
Qed.

Lemma connect_result (s : tester W) :
  (exists b s1, connect s = (Val b, s1)) \/
  (exists s1, connect s = (Exc (Raise KeyboardInterrupt), s1)).
Proof.
  destruct (connect_cases s) as [(w' & Hok)|(e & He)].
  - destruct (connect_ok_result s w' Hok) as (s1 & H & _). left. eauto.
  - pose proof (connect_raises_result s e He) as H.
    destruct (connect s) as [r s1]. cbn [fst] in H. subst r.
    destruct e; cbn; eauto.
Qed.

(** X12.  [main] never returns normally.  It ends in [sys.exit] with code
    0 or 1, or with an uncaught KeyboardInterrupt; and the code is 0
    exactly when [connect] returned [True], [run_full_test] returned
    [True] and [disconnect] returned. *)
Theorem main_exit_code (s : tester W) :
  (fst (main s) = Exc (SystemExit 0) \/
   fst (main s) = Exc (SystemExit 1) \/
   fst (main s) = Exc (Raise KeyboardInterrupt)) /\
  (fst (main s) = Exc (SystemExit 0) <->
   exists s1 s2 s3,
     connect s = (Val true, s1) /\
     run_full_test s1 = (Val true, s2) /\
     disconnect s2 = (Val tt, s3)).
Proof.
  set (R := exists s1 s2 s3,
              connect s = (Val true, s1) /\
              run_full_test s1 = (Val true, s2) /\
              disconnect s2 = (Val tt, s3)).
  destruct (connect_result s) as [(ok & s1 & Hc)|(s1 & Hc)].
  - destruct ok.
    + destruct (run_full_test_outcome s1) as (b & s2 & Hr & _).
      assert (Hmain : main s =
        try_except (disconnect;; sys_exit (if b then 0 else 1)) main_handlers s2).
      { unfold main, try_except, main_body.
        rewrite (bind_val _ _ _ _ _ Hc). cbn [negb].
        unfold bind at 1. unfold ret at 1.
        rewrite (bind_val _ _ _ _ _ Hr). reflexivity. }
      rewrite Hmain. unfold try_except, bind.
      destruct (disconnect_result s2) as [(s3 & Hd & _)|(e & s3 & Hd)].
      * assert (HR : R <-> b = true).
        { subst R. split.
          - intros (x1 & x2 & x3 & H1 & H2 & _).
            rewrite Hc in H1. inversion H1; subst. rewrite Hr in H2.
            inversion H2. reflexivity.
          - intros ->. eauto 6. }
        rewrite Hd. unfold sys_exit, raise. cbn [main_handlers fst].
        destruct b.
        -- split; [auto|]. rewrite HR. split; reflexivity.
        -- split; [auto|]. rewrite HR. split; discriminate.
      * assert (Hno : ~ R).
        { subst R. intros (x1 & x2 & x3 & H1 & H2 & H3).
          rewrite Hc in H1. inversion H1; subst. rewrite Hr in H2.
          inversion H2; subst. rewrite Hd in H3. discriminate. }
        rewrite Hd. cbn [main_handlers].
        destruct e; cbn [is_Exception]; unfold bind, print, sys_exit, raise;
          cbn [fst]; (split; [auto|]); (split; [discriminate|]);
          intros H; exfalso; exact (Hno H).
    + assert (Hno : ~ R).
      { subst R. intros (x1 & x2 & x3 & H1 & _). rewrite Hc in H1.
        discriminate. }
      unfold main, try_except, main_body.
      rewrite (bind_val _ _ _ _ _ Hc). cbn [negb].
      unfold_life. state_simpl.
      split; [auto|]. split; [discriminate|].
      intros H; exfalso; exact (Hno H).
  - assert (Hno : ~ R).
    { subst R. intros (x1 & x2 & x3 & H1 & _). rewrite Hc in H1.
      discriminate. }
    unfold main, try_except, main_body, bind. rewrite Hc.
    cbn [main_handlers is_Exception fst].
    split; [auto|]. split; [discriminate|].
    intros H; exfalso; exact (Hno H).
Qed.

(** X13.  Using the sequencer after [disconnect] is harmless: once
    [disconnect] has returned, a send returns (false, absent) and only
    logs that the connection is not established; no call reaches the
    port. *)
Theorem send_after_disconnect packet name (s : tester W) s1 :
  disconnect s = (Val tt, s1) ->
  send_packet packet name s1 =
    (Val (false, None),
     emit (EvLog ERROR "Serial connection not established" []) s1) /\
  calls (trace (snd (send_packet packet name s1))) = calls (trace s1).
Proof.
  intros H.
  assert (Ho : channel_open s1 = false).
  { destruct (disconnect_result s) as [(s1' & Hd & Ho)|(e & s1' & Hd)];
      rewrite H in Hd; [|discriminate].
    inversion Hd; subst. assumption. }
  rewrite (send_packet_closed _ _ _ Ho). split; [reflexivity|].
  calls_simpl. reflexivity.
Qed.

End Runs.

(** ** The simulated environments at work *)

Lemma steady_bus_uninterrupted wr :
  (forall p e, wr p = inr e -> is_Exception e = true) ->
  uninterrupted (steady_bus wr).
Proof.
  intros H. constructor; cbn; intros; try discriminate.
  match goal with
  | Hw : (wr _, _) = (inr _, _) |- _ => inversion Hw; eauto
  end.
Qed.

Lemma quiet_bus_uninterrupted : uninterrupted quiet_bus.
Proof. apply steady_bus_uninterrupted. discriminate. Qed.

Lemma dead_bus_uninterrupted : uninterrupted dead_bus.
Proof.
  apply steady_bus_uninterrupted. intros p e H. inversion H. reflexivity.
Qed.

(** The transport accepts every write and never answers: every attempt
    of every phase succeeds, with no response. *)
Example quiet_bus_phase :
  fst (send_packet_multiple_times (E := quiet_bus)
         OFFLINE_QUERY_PACKET "Off-line Query" 5 2 (connected_tester tt))
  = Val 5.
Proof. vm_compute. reflexivity. Qed.

Example quiet_bus_send :
  fst (send_packet (E := quiet_bus) READ_DATA_PACKET "Read Data"
         (connected_tester tt))
  = Val (true, None).
Proof. vm_compute. reflexivity. Qed.

(** Every write fails: no attempt succeeds, the run still completes. *)
Example dead_bus_phase :
  fst (send_packet_multiple_times (E := dead_bus)
         OFFLINE_QUERY_PACKET "Off-line Query" 5 2 (connected_tester tt))
  = Val 0.
Proof. vm_compute. reflexivity. Qed.

Example dead_bus_run :
  fst (run_full_test (E := dead_bus) (connected_tester tt)) = Val true /\
  steps (trace (snd (run_full_test (E := dead_bus) (connected_tester tt))))
  = schedule_steps true /\
  fst (main (E := dead_bus) (default_tester tt)) = Exc (SystemExit 0).
Proof. vm_compute. repeat split; reflexivity. Qed.

(** A packet of nine bytes of which five are written. *)
Example short_bus_send :
  len OFFLINE_QUERY_PACKET = 9 /\
  fst (send_packet (E := short_bus) OFFLINE_QUERY_PACKET "Off-line Query"
         (connected_tester tt))
  = Val (false, None).
Proof. vm_compute. split; reflexivity. Qed.

(** A reply of two bytes is read after a full write. *)
Example scripted_reply :
  fst (send_packet (E := scripted_bus) READ_DATA_PACKET "Read Data"
         (connected_tester
            [Pass; Pass; Pass; Pass; Number 2; Number 2; Data ["170"%byte; "085"%byte]]))
  = Val (true, Some ["170"%byte; "085"%byte]).
Proof. vm_compute. reflexivity. Qed.

(** An interrupt in the pause after the second phase: the last three
    phases never start, the port is closed once, the exit code is 1. *)
Example interrupted_run :
  let r := main (E := scripted_bus) (default_tester interrupted_after_phase_2) in
  fst r = Exc (SystemExit 1) /\
  channel_open (snd r) = false /\
  closes (trace (snd r)) = 1%nat /\
  filter is_phase_start (steps (trace (snd r)))
  = [PhaseStart "Off-line Query"; PhaseStart "Remove Register"].
Proof. vm_compute. repeat split; reflexivity. Qed.

(** ** Instances of the theorems *)

Lemma phase_successes_le_count_witness :
  match fst (send_packet_multiple_times (E := dead_bus)
               OFFLINE_QUERY_PACKET "Off-line Query" 5 2 (connected_tester tt)) with
  | Val k => 0 <= k <= 5
  | Exc _ => True
  end.
Proof. apply phase_successes_le_count. lia. Defined.

Lemma run_full_test_schedule_witness :
  exists s',
    run_full_test (E := quiet_bus) (connected_tester tt) = (Val true, s') /\
    steps (trace s') =
      steps (trace (connected_tester tt)) ++ schedule_steps true.
Proof.
  destruct (run_full_test_schedule (E := quiet_bus) (connected_tester tt)
              quiet_bus_uninterrupted) as (s' & H & St & _).
  exists s'. split; [exact H|exact St].
Defined.

Lemma send_packet_success_iff_witness :
  fst (send_packet (E := quiet_bus) READ_DATA_PACKET "Read Data"
         (connected_tester tt)) = Val (true, None)
  <-> send_ok (E := quiet_bus) READ_DATA_PACKET tt None.
Proof.
  apply (send_packet_success_iff (E := quiet_bus) READ_DATA_PACKET "Read Data"
           (connected_tester tt) None).
  reflexivity.
Defined.

Lemma short_bus_partial_write :
  send_error (E := short_bus) OFFLINE_QUERY_PACKET tt.
Proof.
  apply error_partial with (n := 5).
  eapply partial_write_intro; [reflexivity|reflexivity|].
  vm_compute. discriminate.
Qed.

Lemma send_packet_errors_caught_witness :
  fst (send_packet (E := short_bus) OFFLINE_QUERY_PACKET "Off-line Query"
         (connected_tester tt)) = Val (false, None).
Proof.
  apply (send_packet_errors_caught (E := short_bus) OFFLINE_QUERY_PACKET
           "Off-line Query" (connected_tester tt)).
  - reflexivity.
  - exact short_bus_partial_write.
Defined.

Lemma connect_failure_exits_1_witness :
  exists s1 s2,
    connect (E := scripted_bus) (default_tester [Fault SerialException])
      = (Val false, s1) /\
    serial_conn s1 = None /\
    main (E := scripted_bus) (default_tester [Fault SerialException])
      = (Exc (SystemExit 1), s2) /\
    serial_conn s2 = None /\
    calls (trace s2) = [EvSerial "/dev/ttyUSB0" 9600].
Proof.
  apply (connect_failure_exits_1 (E := scripted_bus)
           (default_tester [Fault SerialException]) SerialException []);
    reflexivity.
Defined.

Lemma phase_driver_completes_witness :
  exists runs s',
    send_packet_multiple_times (E := dead_bus)
      OFFLINE_QUERY_PACKET "Off-line Query" 5 2 (connected_tester tt)
      = (Val (successes runs), s') /\
    Z.of_nat (List.length runs) = 5 /\
    Forall (send_run (E := dead_bus) (Some {| is_open := true |})
              OFFLINE_QUERY_PACKET "Off-line Query") runs /\
    trace s' =
      trace (connected_tester tt) ++ phase_header "Off-line Query" 5 2 ++
      phase_events 5 2 0 runs ++
      phase_footer "Off-line Query" 5 (successes runs).
Proof.
  apply (phase_driver_completes (E := dead_bus) OFFLINE_QUERY_PACKET
           "Off-line Query" 5 2 (connected_tester tt)).
  - exact dead_bus_uninterrupted.
  - lia.
Defined.

Lemma disconnect_idempotent_witness :
  disconnect (E := quiet_bus) (default_tester tt) = (Val tt, default_tester tt).
Proof.
  apply (disconnect_idempotent (E := quiet_bus) (default_tester tt)).
  reflexivity.
Defined.

Lemma send_failure_no_response_witness :
  send_packet (E := quiet_bus) READ_DATA_PACKET "Read Data" (default_tester tt)
  = (Val (false, None),
     emit (EvLog ERROR "Serial connection not established" []) (default_tester tt)).
Proof.
  apply (send_failure_no_response (E := quiet_bus) READ_DATA_PACKET "Read Data"
           (default_tester tt)).
  reflexivity.
Defined.

(** C9 as stated fails.  The port is opened, then the reset of the input
    buffer fails (first part) or is interrupted (second part): [main]
    ends with the port open and without a call of close; in the second
    part the interrupt leaves [main] uncaught, not as exit code 1. *)
Lemma main_leaves_port_open :
  (let r := main (E := scripted_bus)
              (default_tester [Pass; Fault OtherException]) in
   fst r = Exc (SystemExit 1) /\
   channel_open (snd r) = true /\
   closes (trace (snd r)) = 0%nat) /\
  (let r := main (E := scripted_bus)
              (default_tester [Pass; Fault KeyboardInterrupt]) in
   fst r = Exc (Raise KeyboardInterrupt) /\
   channel_open (snd r) = true /\
   closes (trace (snd r)) = 0%nat).
Proof. vm_compute. repeat split; reflexivity. Qed.

Lemma main_closes_after_run_witness :
  exists b s2,
    run_full_test (E := scripted_bus)
      (snd (connect (E := scripted_bus) (default_tester interrupted_after_phase_2)))
      = (Val b, s2) /\
    closes (trace (snd (main (E := scripted_bus)
                          (default_tester interrupted_after_phase_2)))) = 1%nat.
Proof.
  destruct (main_closes_after_run (E := scripted_bus)
              (default_tester interrupted_after_phase_2)
              (snd (connect (E := scripted_bus)
                      (default_tester interrupted_after_phase_2))))
    as (b & s2 & H & _ & _ & C & _).
  - vm_compute. reflexivity.
  - exists b, s2. split; [exact H|exact C].
Defined.

(** ** The logger *)

Lemma constructed_from_handlers files lg :
  l_handlers (fold_left (fun lg f => _setup_logging f lg) files lg) =
  l_handlers lg ++
  flat_map
    (fun f =>
       [{| h_sink := FileSink f; h_level := DEBUG;
           h_fmt := "%(asctime)s - %(name)s - %(levelname)s - %(message)s";
           h_datefmt := "%Y-%m-%d %H:%M:%S" |};
        {| h_sink := ConsoleSink; h_level := INFO;
           h_fmt := "%(asctime)s - %(levelname)s - %(message)s";
           h_datefmt := "%H:%M:%S" |}])
    files.
Proof.
  revert lg. induction files as [|f files IH]; intros lg; cbn [fold_left flat_map].
  - now rewrite app_nil_r.
  - rewrite IH. cbn [_setup_logging l_handlers fst snd].
    rewrite <- app_assoc. reflexivity.
Qed.

Lemma constructed_level f files lg :
  l_level (fold_left (fun lg f => _setup_logging f lg) files (_setup_logging f lg))
  = Some DEBUG.
Proof.
  revert f lg. induction files as [|g files IH]; intros f lg; cbn [fold_left].
  - reflexivity.
  - apply IH.
Qed.

(** X14.  Once at least one tester has been constructed, every record is
    written once per tester to that tester's log file, and a record of
    level INFO or above once per tester to the console as well: with one
    tester the file receives every line and the console those from INFO
    up; every further tester constructed in the same process repeats each
    line. *)
Theorem logger_sinks f files lvl :
  deliver (constructed (f :: files)) lvl =
  flat_map
    (fun g =>
       FileSink g :: (if levelno INFO <=? levelno lvl then [ConsoleSink] else []))
    (f :: files).
Proof.
  unfold deliver, constructed.
  rewrite constructed_from_handlers. cbn [fresh_logger l_handlers app].
  unfold effective_level. cbn [fold_left]. rewrite constructed_level.
  assert (H10 : (levelno DEBUG <=? levelno lvl) = true)
    by (destruct lvl; reflexivity).
  rewrite H10.
  generalize (f :: files). intros l.
  induction l as [|g l IH]; [reflexivity|].
  cbn [flat_map app filter map h_level h_sink].
  rewrite H10. cbn [map h_sink]. f_equal.
  destruct (levelno INFO <=? levelno lvl); cbn [map h_sink app]; rewrite IH;
    reflexivity.
Qed.

(** ** More instances *)

Lemma connect_succeeds_iff_witness :
  connect_ok (E := quiet_bus) "/dev/ttyUSB0" 9600 tt
    (world (snd (connect (E := quiet_bus) (default_tester tt)))) /\
  serial_conn (snd (connect (E := quiet_bus) (default_tester tt)))
    = Some {| is_open := true |} /\
  calls (trace (snd (connect (E := quiet_bus) (default_tester tt))))
    = [EvSerial "/dev/ttyUSB0" 9600; EvResetInput; EvResetOutput].
Proof.
  apply (connect_succeeds_iff (E := quiet_bus) (default_tester tt)).
  vm_compute. reflexivity.
Defined.

Lemma scripted_open_refused :
  connect_raises (E := scripted_bus) "/dev/ttyUSB0" 9600
    [Fault SerialException] SerialException.
Proof. eapply connect_raises_open. reflexivity. Qed.

Lemma connect_errors_caught_witness :
  fst (connect (E := scripted_bus) (default_tester [Fault SerialException]))
  = Val false.
Proof.
  apply (connect_errors_caught (E := scripted_bus)
           (default_tester [Fault SerialException])) with (e := SerialException).
  - exact scripted_open_refused.
  - reflexivity.
Defined.

Lemma scripted_reset_fails :
  reset_raises (E := scripted_bus) "/dev/ttyUSB0" 9600
    [Pass; Fault OtherException] OtherException.
Proof. eapply reset_raises_input; reflexivity. Qed.

Lemma connect_false_with_open_port_witness :
  exists s1,
    connect (E := scripted_bus) (default_tester [Pass; Fault OtherException])
      = (Val false, s1) /\
    channel_open s1 = true /\
    closes (trace s1) = 0%nat.
Proof.
  apply (connect_false_with_open_port (E := scripted_bus)
           (default_tester [Pass; Fault OtherException]) OtherException).
  - exact scripted_reset_fails.
  - reflexivity.
Defined.

Lemma quiet_bus_send_ok : send_ok (E := quiet_bus) READ_DATA_PACKET tt None.
Proof.
  eapply send_ok_silent with (n := 0); first [reflexivity|lia].
Qed.

Lemma send_packet_call_order_witness :
  exists _ : Z,
    calls (trace (snd (send_packet (E := quiet_bus) READ_DATA_PACKET "Read Data"
                         (connected_tester tt)))) =
      calls (trace (connected_tester (W := unit) tt)) ++
      [EvResetInput; EvWrite READ_DATA_PACKET; EvFlush; EvSleep 0.5; EvInWaiting] ++
      [].
Proof.
  apply (send_packet_call_order (E := quiet_bus) READ_DATA_PACKET "Read Data"
           (connected_tester tt) None).
  - reflexivity.
  - exact quiet_bus_send_ok.
Defined.

Lemma short_bus_write_failed :
  write_failed (E := short_bus) OFFLINE_QUERY_PACKET tt.
Proof.
  apply write_failed_partial with (n := 5).
  eapply partial_write_intro; [reflexivity|reflexivity|].
  vm_compute. discriminate.
Qed.

Lemma send_packet_stops_at_failed_write_witness :
  fst (send_packet (E := short_bus) OFFLINE_QUERY_PACKET "Off-line Query"
         (connected_tester tt)) = Val (false, None) /\
  calls (trace (snd (send_packet (E := short_bus) OFFLINE_QUERY_PACKET
                       "Off-line Query" (connected_tester tt)))) =
    calls (trace (connected_tester (W := unit) tt)) ++
    [EvResetInput; EvWrite OFFLINE_QUERY_PACKET].
Proof.
  apply (send_packet_stops_at_failed_write (E := short_bus)).
  - reflexivity.
  - exact short_bus_write_failed.
Defined.

Lemma phase_without_attempts_witness :
  exists s',
    send_packet_multiple_times (E := quiet_bus) READ_DATA_PACKET "Read Data" 0 2
      (connected_tester tt) = (Val 0, s') /\
    trace s' = trace (connected_tester (W := unit) tt) ++
               phase_header "Read Data" 0 2 ++ phase_footer "Read Data" 0 0 /\
    world s' = tt.
Proof.
  apply (phase_without_attempts (E := quiet_bus)). lia.
Defined.

Lemma phase_on_closed_channel_witness :
  exists s',
    send_packet_multiple_times (E := quiet_bus) READ_DATA_PACKET "Read Data" 5 2
      (default_tester tt) = (Val 0, s') /\
    calls (trace s') =
      calls (trace (default_tester (W := unit) tt)) ++
      repeat (EvSleep 2) (Z.to_nat (5 - 1)).
Proof.
  apply (phase_on_closed_channel (E := quiet_bus)).
  - intros q w. exists tt, w. reflexivity.
  - reflexivity.
Defined.

Lemma phase_result_matches_verdicts_witness :
  exists vs,
    verdicts (trace (snd (send_packet_multiple_times (E := dead_bus)
                            OFFLINE_QUERY_PACKET "Off-line Query" 5 2
                            (connected_tester tt)))) =
      verdicts (trace (connected_tester (W := unit) tt)) ++ vs /\
    List.length vs = Z.to_nat 5 /\
    0 = Z.of_nat (List.length (filter (fun b : bool => b) vs)).
Proof.
  apply (phase_result_matches_verdicts (E := dead_bus) OFFLINE_QUERY_PACKET
           "Off-line Query" 5 2 (connected_tester tt)).
  vm_compute. reflexivity.
Defined.


Lemma send_after_disconnect_witness :
  send_packet (E := quiet_bus) READ_DATA_PACKET "Read Data"
    (snd (disconnect (E := quiet_bus) (connected_tester tt))) =
    (Val (false, None),
     emit (EvLog ERROR "Serial connection not established" [])
       (snd (disconnect (E := quiet_bus) (connected_tester tt)))) /\
  calls (trace (snd (send_packet (E := quiet_bus) READ_DATA_PACKET "Read Data"
                       (snd (disconnect (E := quiet_bus) (connected_tester tt))))))
  = calls (trace (snd (disconnect (E := quiet_bus) (connected_tester tt)))).
Proof.
  apply (send_after_disconnect (E := quiet_bus) READ_DATA_PACKET "Read Data"
           (connected_tester tt)).
  vm_compute. reflexivity.
Defined.
